(** * crypto_crawler: the price poller and the CSV writers

    A shallow embedding of [phase_1/price_pulse.py] (the polling loop with its
    rolling window, exponential backoff and SIGINT flag) and of the
    [write_to_csv] function shared by the two phase-2 scrapers.

    Conventions.
    - Python [int]s are [Z]; wall-clock time is a [Z] counted in milliseconds.
    - The numbers that JSON decodes to ([int]s and [float]s) are an abstract
      type [num]: the built-in [sum] over the deque, the true division by
      [len] and the formatting of the status line are parameters of the
      poller, each with the [OverflowError] it can raise, so every statement
      holds for whatever arithmetic the interpreter performs.  The [q_]
      definitions instantiate them on the exact values of the numbers to run
      scenarios.
    - An exception is a value of [exn]; a call that can raise returns
      [exn + A] with the exception on the left.
    - Output (the status line, log records), [time.sleep] and the network call
      are recorded as a list of [event]s; once its text is formatted,
      [print] is taken to succeed, and so is [logging]. *)

From Stdlib Require Import ZArith QArith Lia Ascii String Sorted.
From stdpp Require Import gmap strings list fin_maps pretty.

Close Scope Q_scope.
Local Open Scope Z_scope.

(** * Python values and effects shared by the three scripts *)

Module Python.

(** The exception classes that the modelled calls raise.  [Timeout],
    [ConnectionError], [HTTPError] and [JSONDecodeError] are the classes of
    [requests.exceptions]; the last one inherits from both
    [RequestException] and [ValueError].  [FileNotFoundError] and
    [IsADirectoryError] are [OSError]s. *)
Inductive exn :=
| Timeout
| ConnectionError
| HTTPError (status : Z)
| JSONDecodeError
| KeyError (key : string)
| TypeError
| ValueError
| OverflowError
| ZeroDivisionError
| FileNotFoundError
| IsADirectoryError.

Definition is_RequestException (e : exn) : bool :=
  match e with
  | Timeout | ConnectionError | HTTPError _ | JSONDecodeError => true
  | _ => false
  end.

Definition is_ValueError (e : exn) : bool :=
  match e with
  | ValueError | JSONDecodeError => true
  | _ => false
  end.

#[export] Instance exn_ret : MRet (sum exn) := λ A x, inr x.
#[export] Instance exn_bind : MBind (sum exn) := λ A B f m,
  match m with
  | inl e => inl e
  | inr x => f x
  end.

(** Statements over a store [S] that emit events [E]: they may raise, and a
    raise keeps the events and the store reached so far. *)
Definition stmt (S E A : Type) : Type := S → list E * (exn + A) * S.

#[export] Instance stmt_ret {S E} : MRet (stmt S E) := λ A x s, ([], inr x, s).
#[export] Instance stmt_bind {S E} : MBind (stmt S E) := λ A B f m s,
  match m s with
  | (evs, inr x, s1) => let '(evs', r, s2) := f x s1 in (evs ++ evs', r, s2)
  | (evs, inl e, s1) => (evs, inl e, s1)
  end.

Definition lift {S E A} (r : exn + A) : stmt S E A := λ s, ([], r, s).
Definition emit {S E} (ev : E) : stmt S E unit := λ s, ([ev], inr tt, s).

(** [try: body except <catches> as e: handler e]. *)
Definition try_except {S E A} (body : stmt S E A) (catches : exn → bool)
    (handler : exn → stmt S E A) : stmt S E A := λ s,
  match body s with
  | (evs, inl e, s1) =>
      if catches e
      then let '(evs', r, s2) := handler e s1 in (evs ++ evs', r, s2)
      else (evs, inl e, s1)
  | done => done
  end.

End Python.

Export Python.

(** * Numbers as the interpreter holds them, on rationals

    A rational stands for the exact value of a Python number: an [int], or a
    [float] (a binary64).  Conversions to [float], true division and
    formatting are correctly rounded in CPython, so they are functions of
    the exact value. *)

Module Floats.

(** The integer nearest to [p / q] for [0 ≤ p] and [0 < q], a tie going to
    the even one. *)
Definition round_half_even (p q : Z) : Z :=
  let n := p `div` q in
  let r := p `mod` q in
  if bool_decide (2 * r < q) then n
  else if bool_decide (q < 2 * r) then n + 1
  else if Z.even n then n else n + 1.

(** The [float] nearest to a rational, a tie going to the even mantissa:
    [m * 2 ^ u] with [m] of at most 53 bits and [u] no less than [-1074].
    [None] when it is beyond the range of [float]s, where the conversion of
    an [int] and the true division of [int]s raise [OverflowError]. *)
Definition round_float (x : Q) : option Q :=
  let p := Z.abs (Qnum x) in
  let q := Z.pos (Qden x) in
  if bool_decide (p = 0) then Some 0%Q
  else
    let e0 := Z.log2 p - Z.log2 q in
    let reaches := if bool_decide (0 ≤ e0) then bool_decide (q * 2 ^ e0 ≤ p)
                   else bool_decide (q ≤ p * 2 ^ (- e0)) in
    let e := if reaches : bool then e0 else e0 - 1 in
    let u := Z.max (e - 52) (-1074) in
    let m := if bool_decide (0 ≤ u) then round_half_even p (q * 2 ^ u)
             else round_half_even (p * 2 ^ (- u)) q in
    let signed := if bool_decide (Qnum x < 0) then - m else m in
    if bool_decide (0 ≤ u) then
      if bool_decide (2 ^ 1024 ≤ m * 2 ^ u) then None
      else Some (inject_Z (signed * 2 ^ u))
    else Some (Qred (Qmake signed (Z.to_pos (2 ^ (- u))))).

(** [digits] decimal digits, with zeros in front as needed. *)
Definition zero_padded (digits : nat) (n : Z) : string :=
  let text := pretty n in
  string_of_list_ascii (replicate (digits - String.length text) "0"%char)
  +:+ text.

(** The digits of an integer part in groups of three, from the right. *)
Fixpoint grouped (fuel : nat) (n : Z) : string :=
  match fuel with
  | O => pretty n
  | S fuel' =>
      if bool_decide (n < 1000) then pretty n
      else grouped fuel' (n `div` 1000) +:+ "," +:+ zero_padded 3 (n `mod` 1000)
  end.

(** [format(x, ".Nf")], and [format(x, ",.Nf")] with [comma], on the exact
    value of a [float]: the nearest multiple of [10 ^ -N], a tie going to
    the even one, with the sign of [x]. *)
Definition fixed (digits : nat) (comma : bool) (x : Q) : string :=
  let scale := 10 ^ Z.of_nat digits in
  let n := round_half_even (Z.abs (Qnum x) * scale) (Z.pos (Qden x)) in
  let whole := n `div` scale in
  (if bool_decide (Qnum x < 0) then "-" else "")
  +:+ (if comma then grouped (Z.to_nat (Z.log2 whole)) whole else pretty whole)
  +:+ (match digits with
       | O => ""
       | _ => "." +:+ zero_padded digits (n `mod` scale)
       end).

(** [format(x, ".Nf")] and [format(x, ",.Nf")] on a number: an [int] is
    converted to [float] first, which a [float] already is. *)
Definition format_f (digits : nat) (comma : bool) (x : Q) : option string :=
  fixed digits comma <$> round_float x.

End Floats.

(** * [phase_1/price_pulse.py] *)

Module PricePulse.

(** [except (requests.RequestException, ValueError) as e] (line 102). *)
Definition main_except (e : exn) : bool :=
  is_RequestException e || is_ValueError e.

(** The SIGINT handler sets [should_shutdown] once the signal is delivered;
    [sigint] is the instant of delivery, [None] when it never comes.  The
    interpreter runs the handler between two bytecodes and resumes an
    interrupted [time.sleep] or socket read for the rest of its duration, so
    the only effect is that the flag reads [True] from that instant on. *)
Definition should_shutdown (sigint : option Z) (now : Z) : bool :=
  match sigint with
  | Some t => bool_decide (t ≤ now)
  | None => false
  end.

(** [collections.deque(maxlen=...).append]: the item goes to the right end,
    then the left end is dropped when the bound is exceeded. *)
Definition deque_append {A} (maxlen : nat) (d : list A) (x : A) : list A :=
  let d' := d ++ [x] in
  if decide (maxlen < length d')%nat then drop 1 d' else d'.

Definition MAXLEN : nat := 10.

(** What arithmetic on numbers raises when it raises: an [int] too large for
    the [float] it has to become. *)
Definition overflow {A} (r : option A) : exn + A :=
  match r with
  | Some x => inr x
  | None => inl OverflowError
  end.

Section Poller.

(** Numbers and the library functions applied to them. *)
Context {num stamp : Type}.
(** [sum(price_window)] on a deque of numbers; [None] when it raises
    [OverflowError], as the sum of a [float] and an [int] beyond the range
    of [float]s does. *)
Variable py_sum : list num → option num.
(** [total / len(price_window)] for a non-zero length; [None] when it raises
    [OverflowError], as the quotient of [int]s beyond the range of [float]s
    does. *)
Variable py_truediv : num → Z → option num.
(** [f"{x:,.2f}"]; [None] when it raises [OverflowError], as it does on an
    [int] beyond the range of [float]s. *)
Variable format_2f : num → option string.
(** [datetime.utcfromtimestamp(ts).strftime(...)] on a number; it raises on
    values outside the platform's range. *)
Variable utcfromtimestamp : num → exn + stamp.

(** ** The decoded response *)

(** What [resp.json()] returns.  JSON booleans decode to [bool], a subclass of
    [int], and are carried as [PNum]. *)
#[warnings="-register-all"]
Inductive pyval :=
| PNone
| PNum (x : num)
| PStr (s : string)
| PList (xs : list pyval)
| PDict (d : gmap string pyval).

(** [obj[key]] for a string key. *)
Definition subscript (obj : pyval) (key : string) : exn + pyval :=
  match obj with
  | PDict d =>
      match d !! key with
      | Some v => inr v
      | None => inl (KeyError key)
      end
  | _ => inl TypeError
  end.

(** What one call of [requests.get] meets. *)
Inductive net_failure := NetTimeout | NetUnreachable.

Definition exn_of_net (f : net_failure) : exn :=
  match f with
  | NetTimeout => Timeout
  | NetUnreachable => ConnectionError
  end.

(** [body] is [None] when the payload is not JSON. *)
Inductive http_result :=
| NoResponse (f : net_failure)
| Response (status : Z) (body : option pyval).

(** [Response.raise_for_status]: 4xx and 5xx raise [HTTPError]. *)
Definition raise_for_status (status : Z) : exn + unit :=
  if bool_decide (400 ≤ status < 600) then inl (HTTPError status) else inr tt.

Definition json (body : option pyval) : exn + pyval :=
  match body with
  | Some v => inr v
  | None => inl JSONDecodeError
  end.

Definition utcfromtimestamp_strftime (ts_unix : pyval) : exn + stamp :=
  match ts_unix with
  | PNum t => utcfromtimestamp t
  | _ => inl TypeError
  end.

(** [fetch_price] (lines 67-73) on the result of its [requests.get]. *)
Definition fetch_price (r : http_result) : exn + (pyval * stamp) :=
  match r with
  | NoResponse f => inl (exn_of_net f)
  | Response status body =>
      _ ← raise_for_status status;
      data ← json body;
      bitcoin ← subscript data "bitcoin";
      price ← subscript bitcoin "usd";
      bitcoin' ← subscript data "bitcoin";
      ts_unix ← subscript bitcoin' "last_updated_at";
      dt ← utcfromtimestamp_strftime ts_unix;
      mret (price, dt)
  end.

(** ** The loop's state and its observable actions *)

Record state := State {
  price_window : list num;
  consecutive_failures : Z;
  backoff : Z
}.

(** Lines 85-87. *)
Definition initial : state := State [] 0 1.

Record world := World { locals : state; clock : Z }.

(** The two [time.sleep] calls: line 101 and line 106. *)
Inductive sleep_site := PollSleep | BackoffSleep.

Inductive event :=
| EvFetch (t : Z)
| EvStatus (timestamp : stamp) (price sma : num)
| EvWarning (e : exn)
| EvRetryInfo (seconds : Z)
| EvSleep (site : sleep_site) (t ms : Z)
| EvError5.

(** The statements of [main]: over the locals and the clock. *)
Definition prog : Type → Type := stmt world event.

Definition get : prog state := λ w, ([], inr (locals w), w).
Definition put (s : state) : prog unit := λ w, ([], inr tt, World s (clock w)).

(** [time.sleep]: the clock advances by the full duration. *)
Definition sleep (site : sleep_site) (ms : Z) : prog unit := λ w,
  ([EvSleep site (clock w) ms], inr tt, World (locals w) (clock w + ms)).

Variable sigint : option Z.

Definition read_should_shutdown : prog bool := λ w,
  ([], inr (should_shutdown sigint (clock w)), w).

(** One network round trip of the script: how long the call takes and what
    comes back. *)
Record attempt := Attempt { latency : N; response : http_result }.

Definition call_fetch_price (a : attempt) : prog (pyval * stamp) := λ w,
  ([EvFetch (clock w)], fetch_price (response a),
   World (locals w) (clock w + Z.of_N (latency a))).

(** Assignments to the three locals. *)
Definition set_price_window (d : list num) : prog unit :=
  s ← get; put (State d (consecutive_failures s) (backoff s)).
Definition set_consecutive_failures (n : Z) : prog unit :=
  s ← get; put (State (price_window s) n (backoff s)).
Definition set_backoff (b : Z) : prog unit :=
  s ← get; put (State (price_window s) (consecutive_failures s) b).

(** [price_window.append(price)] (line 92).  The append itself accepts any
    object; a price that is not a number makes [sum] raise [TypeError] on the
    next line, which [main] does not catch, so the deque dies with the
    process and is kept as a list of numbers here. *)
Definition price_window_append (price : pyval) : prog num :=
  match price with
  | PNum x =>
      s ← get;
      set_price_window (deque_append MAXLEN (price_window s) x);;
      mret x
  | _ => lift (inl TypeError)
  end.

(** [sum(price_window) / len(price_window)]: the sum, then the length, then
    the division, which raises [ZeroDivisionError] on a zero length. *)
Definition mean (d : list num) : exn + num :=
  total ← overflow (py_sum d);
  let n := Z.of_nat (length d) in
  if bool_decide (n = 0) then inl ZeroDivisionError
  else overflow (py_truediv total n).

(** The truth value of a deque: it is not empty. *)
Definition deque_bool {A} (d : list A) : bool := bool_decide (0 < length d)%nat.

(** [sum(price_window) / len(price_window) if price_window else price]. *)
Definition sma_expr (d : list num) (price : num) : exn + num :=
  if deque_bool d then mean d else inr price.

(** Lines 98-101. *)
Fixpoint poll_wait (n : nat) : prog unit :=
  match n with
  | O => mret tt
  | S k =>
      stop ← read_should_shutdown;
      if stop : bool then mret tt
      else sleep PollSleep 100;; poll_wait k
  end.

(** Lines 91-101.  The f-string of line 94 formats the price, then the
    average, before [print] is called. *)
Definition try_body (a : attempt) : prog unit :=
  '(price, timestamp) ← call_fetch_price a;
  x ← price_window_append price;
  s ← get;
  sma ← lift (sma_expr (price_window s) x);
  lift (overflow (format_2f x));;
  lift (overflow (format_2f sma));;
  emit (EvStatus timestamp x sma);;
  set_consecutive_failures 0;;
  set_backoff 1;;
  poll_wait 10.

(** Lines 103-110. *)
Definition handler (e : exn) : prog unit :=
  emit (EvWarning e);;
  s ← get;
  set_consecutive_failures (consecutive_failures s + 1);;
  s ← get;
  emit (EvRetryInfo (backoff s));;
  sleep BackoffSleep (1000 * backoff s);;
  set_backoff (Z.min (backoff s * 2) 60);;
  s ← get;
  if bool_decide (5 ≤ consecutive_failures s) then emit EvError5 else mret tt.

(** The body of the [while] loop. *)
Definition iteration (a : attempt) : prog unit :=
  try_except (try_body a) main_except handler.

(** How a run over a finite script of round trips ends: [sys.exit(0)] after
    the loop, an exception that leaves [main], or the loop still turning when
    the script is used up. *)
Inductive outcome :=
| Exit (status : Z)
| Traceback (e : exn)
| Polling (w : world).

(** Lines 89-112. *)
Fixpoint main_loop (script : list attempt) (w : world) : list event * outcome :=
  if should_shutdown sigint (clock w) then ([], Exit 0)
  else
    match script with
    | [] => ([], Polling w)
    | a :: rest =>
        match iteration a w with
        | (evs, inr _, w') =>
            let '(evs', o) := main_loop rest w' in (evs ++ evs', o)
        | (evs, inl e, _) => (evs, Traceback e)
        end
    end.

Definition main (script : list attempt) (start : Z) : list event * outcome :=
  main_loop script (World initial start).

(** ** What a run shows *)

(** The price and the average of each status line, in order of printing. *)
Definition statuses (tr : list event) : list (num * num) :=
  omap (λ ev, match ev with EvStatus _ p sma => Some (p, sma) | _ => None end) tr.

(** The durations slept at line 106, in order. *)
Definition backoff_waits (tr : list event) : list Z :=
  omap (λ ev, match ev with EvSleep BackoffSleep _ ms => Some ms | _ => None end) tr.

(** The instants at which [fetch_price] was called. *)
Definition fetch_times (tr : list event) : list Z :=
  omap (λ ev, match ev with EvFetch t => Some t | _ => None end) tr.

(** How many times line 110 logged the error. *)
Definition escalations (tr : list event) : nat :=
  length (omap (λ ev, match ev with EvError5 => Some tt | _ => None end) tr).

(** A sleep of the wait between two polls (line 101). *)
Definition is_poll_sleep (ev : event) : bool :=
  match ev with
  | EvSleep PollSleep _ _ => true
  | _ => false
  end.

(** The price an attempt records, if it records one. *)
Definition sample (a : attempt) : option num :=
  match fetch_price (response a) with
  | inr (PNum x, _) => Some x
  | _ => None
  end.

(** The attempt raises an exception that line 102 catches. *)
Definition fails (a : attempt) : bool :=
  match fetch_price (response a) with
  | inl e => main_except e
  | inr _ => false
  end.

(** How many times line 103 logged a warning. *)
Definition warnings (tr : list event) : nat :=
  length (omap (λ ev, match ev with EvWarning _ => Some tt | _ => None end) tr).

(** A turn is a success when [fetch_price] returns and lines 92-101 run to
    their end: the status line is printed and the backoff reset. *)
Definition succeeds (a : attempt) (w : world) : Prop :=
  fails a = false ∧ (iteration a w).1.2 = inr tt.

(** 1 for a run that an exception ended, 0 otherwise. *)
Definition tracebacks (o : outcome) : nat :=
  match o with
  | Traceback _ => 1
  | _ => 0
  end.

(** The locals are within the bounds that lines 86-87, 96-97, 104 and 107
    keep them in. *)
Definition in_bounds (s : state) : Prop :=
  1 ≤ backoff s ≤ 60 ∧ 0 ≤ consecutive_failures s.

(** ** The words of the specification *)

(** A transient fetch error: no response (timeout, connection failure), a
    4xx or 5xx status, or a body that is not JSON. *)
Definition transient (r : http_result) : bool :=
  match r with
  | NoResponse _ => true
  | Response status body =>
      bool_decide (400 ≤ status < 600)
      || match body with None => true | Some _ => false end
  end.

(** The last [n] elements of a sequence, in their order. *)
Definition last_n {A} (n : nat) (l : list A) : list A := drop (length l - n) l.

(** The arithmetic mean of a non-empty sequence of samples: their sum
    divided by their number, where the interpreter can compute both. *)
Definition arithmetic_mean (l : list num) : option num :=
  total ← py_sum l; py_truediv total (Z.of_nat (length l)).

(** The delay, in seconds, before the retry that follows the [k]-th
    consecutive failure, counting from 0: doubling from 1, capped at 60. *)
Definition nth_delay (k : nat) : Z := Z.min (2 ^ Z.of_nat k) 60.

End Poller.

(** The window after recording [vs] one by one into an empty deque. *)
Definition record_all {A} (vs : list A) : list A :=
  foldl (deque_append MAXLEN) [] vs.

(** ** Running the poller on integer prices

    A rational stands for the exact value of a number.  The prices of the
    scenarios are JSON integers, which decode to [int]s. *)

(** [sum] on [int]s: it adds from the left, starting at [0], and is
    exact. *)
Definition q_sum (l : list Q) : option Q := Some (fold_left Qplus l 0%Q).
(** The true division of an [int] by an [int]: the [float] nearest to the
    quotient, [OverflowError] beyond the range of [float]s. *)
Definition q_truediv (total : Q) (n : Z) : option Q :=
  Floats.round_float (total / inject_Z n).
Definition q_format_2f (x : Q) : option string := Floats.format_f 2 true x.
(** The epoch value stands for its formatted date. *)
Definition q_utcfromtimestamp (t : Q) : exn + Q := inr t.

Definition q_iteration :=
  iteration q_sum q_truediv q_format_2f q_utcfromtimestamp.
Definition q_main_loop :=
  main_loop q_sum q_truediv q_format_2f q_utcfromtimestamp.
Definition q_main := main q_sum q_truediv q_format_2f q_utcfromtimestamp.
Definition q_fails := fails q_utcfromtimestamp.

(** A 200 response carrying [{"bitcoin": {"usd": price, "last_updated_at": ts}}]. *)
Definition quote (price ts : Q) : http_result :=
  Response 200 (Some (PDict {[ "bitcoin" :=
    PDict (<[ "usd" := PNum price ]> {[ "last_updated_at" := PNum ts ]}) ]})).

(** Round trips for the scenarios: a quote after 50 ms, a request that times
    out after the 10 s of [timeout=10], and 200 responses whose body lacks
    what [fetch_price] reads. *)
Definition quoted (price : Q) : attempt :=
  Attempt 50 (quote price 1700000000).
Definition timed_out : @attempt Q :=
  Attempt 10000 (NoResponse NetTimeout).
Definition empty_object : @attempt Q :=
  Attempt 50 (Response 200 (Some (PDict ∅))).
Definition no_timestamp : @attempt Q :=
  Attempt 50 (Response 200 (Some (PDict {[ "bitcoin" :=
    PDict {[ "usd" := PNum 43210%Q ]} ]}))).
Definition array_body : @attempt Q :=
  Attempt 50 (Response 200 (Some (PList []))).
Definition price_as_text : @attempt Q :=
  Attempt 50 (Response 200 (Some (PDict {[ "bitcoin" :=
    PDict (<[ "usd" := PStr "43210.5" ]>
             {[ "last_updated_at" := PNum 1700000000%Q ]}) ]}))).

End PricePulse.

(** * [phase_2/cmc_html_scraper.py] and [phase_2/cmc_json_scraper.py] *)

(** What [write_to_csv] uses of [os], [open] and [csv].  A file is the list
    of the CSV rows written to it, a row the list of its cells; quoting and
    line ends are those of [csv.writer] and are not spelled out.  The file
    system is the regular files by path; directories are not part of it.
    The calls raise on the paths that no POSIX file system accepts; failures
    that depend on permissions, on limits on the length of names or on what
    else the disk holds are outside the model. *)
Module Os.

Abbreviation row := (list string).

Inductive event :=
| EvLogError (msg : string)
| EvLogInfo (records : nat) (filename : string)
| EvMakedirs (name : string)
| EvOpen (filename : string)
| EvClose (filename : string).

Definition io : Type → Type := stmt (gmap string (list row)) event.

Definition is_sep (c : ascii) : bool := bool_decide (c = "/"%char).

(** On a reversed path: what is left of the last separator, it included. *)
Fixpoint skip_to_sep (l : list ascii) : list ascii :=
  match l with
  | [] => []
  | c :: l' => if is_sep c then l else skip_to_sep l'
  end.

(** On a reversed path: what is right of the last separator. *)
Fixpoint take_to_sep (l : list ascii) : list ascii :=
  match l with
  | [] => []
  | c :: l' => if is_sep c then [] else c :: take_to_sep l'
  end.

Fixpoint skip_seps (l : list ascii) : list ascii :=
  match l with
  | c :: l' => if is_sep c then skip_seps l' else l
  | [] => []
  end.

(** [os.path.dirname]: the path up to its last separator, trailing
    separators stripped unless it consists of separators only. *)
Definition dirname (p : string) : string :=
  let head := skip_to_sep (rev (list_ascii_of_string p)) in
  string_of_list_ascii
    (rev (match skip_seps head with [] => head | stripped => stripped end)).

(** [os.path.basename]. *)
Definition basename (p : string) : string :=
  string_of_list_ascii (rev (take_to_sep (rev (list_ascii_of_string p)))).

(** A path with a NUL character is refused by every call that takes a
    path: [ValueError]. *)
Definition has_nul (p : string) : bool :=
  bool_decide ("000"%char ∈ list_ascii_of_string p).

(** [os.makedirs(name, exist_ok=True)]; the empty path is refused by
    [mkdir].  The event records a call that returned. *)
Definition makedirs (name : string) : io unit :=
  if bool_decide (name = "") then lift (inl FileNotFoundError)
  else if has_nul name then lift (inl ValueError)
  else emit (EvMakedirs name).

(** [open(filename, "w", ...)]: the file is created, or emptied if it was
    there; a path that ends in a separator, in [.] or in [..] names a
    directory. *)
Definition open_w (filename : string) : io unit := λ fs,
  if has_nul filename then ([], inl ValueError, fs)
  else if bool_decide (basename filename ∈ [""; "."; ".."])
  then ([], inl IsADirectoryError, fs)
  else ([EvOpen filename], inr tt, <[filename := []]> fs).

Definition write (filename : string) (r : row) : io unit := λ fs,
  ([], inr tt, alter (λ rows, rows ++ [r]) filename fs).

(** [with open(filename, "w", ...) as f: body]: the file is closed whether
    the body raises or not. *)
Definition with_open {A} (filename : string) (body : io A) : io A := λ fs,
  match open_w filename fs with
  | (evs, inr _, fs1) =>
      let '(evs', r, fs2) := body fs1 in
      (evs ++ evs' ++ [EvClose filename], r, fs2)
  | (evs, inl e, fs1) => (evs, inl e, fs1)
  end.

(** [csv.DictWriter._dict_to_list] with the default [extrasaction] and
    [restval]: a key outside [fieldnames] is an error, a missing one gives an
    empty cell. *)
Definition dict_to_list (fieldnames : list string) (rowdict : gmap string string)
    : exn + row :=
  if bool_decide (dom rowdict ⊆ list_to_set fieldnames)
  then inr ((λ key, default "" (rowdict !! key)) <$> fieldnames)
  else inl ValueError.

Definition writerow (filename : string) (fieldnames : list string)
    (rowdict : gmap string string) : io unit :=
  r ← lift (dict_to_list fieldnames rowdict);
  write filename r.

(** [DictWriter.writeheader]: the row of the dict that maps each field name
    to itself. *)
Definition writeheader (filename : string) (fieldnames : list string) : io unit :=
  writerow filename fieldnames (list_to_map (zip fieldnames fieldnames)).

(** [DictWriter.writerows]: the rows go out one by one. *)
Fixpoint writerows (filename : string) (fieldnames : list string)
    (rowdicts : list (gmap string string)) : io unit :=
  match rowdicts with
  | [] => mret tt
  | d :: rest =>
      writerow filename fieldnames d;;
      writerows filename fieldnames rest
  end.

End Os.

Export Os.

Module CmcHtmlScraper.

Definition OUTPUT_CSV : string := "data/cmc_top100_html.csv".

(** The dict that [parse_coin_row] returns for a coin row (lines 69-76). *)
Definition coin_row (rank name symbol price change_24h market_cap : string)
    : gmap string string :=
  <[ "Rank" := rank ]> (<[ "Name" := name ]> (<[ "Symbol" := symbol ]>
  (<[ "Price (USD)" := price ]> (<[ "24h % Change" := change_24h ]>
  {[ "Market Cap (USD)" := market_cap ]})))).

(** Lines 114-133. *)
Definition write_to_csv (coins : list (gmap string string)) (filename : string)
    : io unit :=
  match coins with
  | [] => emit (EvLogError "No data to write.")
  | _ =>
      makedirs (dirname filename);;
      let fieldnames := ["Rank"; "Name"; "Symbol"; "Price (USD)";
                         "24h % Change"; "Market Cap (USD)"] in
      with_open filename (
        writeheader filename fieldnames;;
        writerows filename fieldnames coins);;
      emit (EvLogInfo (length coins) filename)
  end.

(** *** The page and its rows *)

Definition BASE_URL : string := "https://coinmarketcap.com/".

(** A [td] of a row: the text that [get_text(strip=True)] gives for it, and
    for each [p] tag that [find_all('p')] finds in it.  A [str] is carried
    as its UTF-8 bytes. *)
Record td := Td { get_text : string; find_all_p : list string }.

(** A [tr], as the list that [find_all('td')] gives for it. *)
Abbreviation tr := (list td).

(** [s.replace(c, '')] for a one-byte [c]. *)
Definition remove_char (c : ascii) (s : string) : string :=
  string_of_list_ascii (filter (λ x, x ≠ c) (list_ascii_of_string s)).

(** [s.replace(c, '', 1)] for a one-byte [c]. *)
Fixpoint remove_first (c : ascii) (s : string) : string :=
  match s with
  | EmptyString => EmptyString
  | String x s' => if bool_decide (x = c) then s' else String x (remove_first c s')
  end.

(** What one [requests.get] of a page meets; [tbody] is the rows of the
    first [tbody] that [BeautifulSoup] finds, if it finds one. *)
Inductive page :=
| NoPage (f : PricePulse.net_failure)
| Page (status : Z) (tbody : option (list tr)).

Inductive event :=
| EvInfoFetching (url : string)
| EvGet (url : string)
| EvErrorNoTable
| EvInfoRows (page : Z) (rows : nat)
| EvInfoParsed (coins : nat) (page : Z)
| EvSleep (seconds : Z)
| EvInfoTotal (coins : nat).

Section Scraper.

(** [str.split()] and [str.isdigit()], which go by the Unicode tables. *)
Variable split : string → list string.
Variable isdigit : string → bool.
(** The site: what a request of a URL meets. *)
Variable web : string → page.

(** Lines 34-79.  The indexing of lines 48-64 cannot fail once line 45 has
    passed; were it to fail, line 77 would catch the [IndexError]. *)
Definition parse_coin_row (tds : tr) : gmap string string :=
  if bool_decide (length tds < 8)%nat then ∅
  else
    match tds !! 1%nat, tds !! 2%nat, tds !! 3%nat, tds !! 4%nat, tds !! 7%nat with
    | Some td1, Some td2, Some td3, Some td4, Some td7 =>
        let rank := get_text td1 in
        let '(name, symbol) :=
          match find_all_p td2 with
          | p0 :: p1 :: _ => (p0, p1)
          | _ =>
              let cell_text := get_text td2 in
              if bool_decide (cell_text ≠ "") then
                let parts := split cell_text in
                (match parts with [] => "" | part :: _ => part end,
                 match parts with _ :: part :: _ => part | _ => "" end)
              else ("", "")
          end in
        let price := remove_char "," (remove_char "$" (get_text td3)) in
        let change_24h := remove_char "%" (get_text td4) in
        let market_cap := remove_char "," (remove_char "$" (get_text td7)) in
        if bool_decide (name = "") || bool_decide (symbol = "")
           || negb (isdigit (remove_first "." price))
        then ∅
        else
          <[ "Rank" := rank ]> (<[ "Name" := name ]> (<[ "Symbol" := symbol ]>
          (<[ "Price (USD)" := price ]> (<[ "24h % Change" := change_24h ]>
          {[ "Market Cap (USD)" := market_cap ]}))))
    | _, _, _, _, _ => ∅
    end.

(** The statements of [scrape_cmc_top_100]: over [all_coins]. *)
Definition scraper : Type → Type := stmt (list (gmap string string)) event.

Definition append (data : gmap string string) : scraper unit := λ all_coins,
  ([], inr tt, all_coins ++ [data]).

(** Lines 103-107; the result is [parsed_this_page]. *)
Fixpoint parse_rows (rows : list tr) : scraper nat :=
  match rows with
  | [] => mret O
  | row :: rest =>
      let data := parse_coin_row row in
      if bool_decide (data ≠ ∅) then
        append data;;
        parsed ← parse_rows rest;
        mret (S parsed)
      else parse_rows rest
  end.

(** Line 91. *)
Definition page_url (page : Z) : string :=
  BASE_URL +:+ (if bool_decide (1 < page) then "?page=" +:+ pretty page else "").

(** Lines 91-109, one turn of the loop over the pages. *)
Definition scrape_page (page : Z) : scraper unit :=
  let url := page_url page in
  emit (EvInfoFetching url);;
  emit (EvGet url);;
  match web url with
  | NoPage f => lift (inl (PricePulse.exn_of_net f))
  | Page status tbody =>
      lift (PricePulse.raise_for_status status);;
      match tbody with
      | None => emit EvErrorNoTable
      | Some rows =>
          emit (EvInfoRows page (length rows));;
          parsed_this_page ← parse_rows rows;
          emit (EvInfoParsed parsed_this_page page);;
          emit (EvSleep 1)
      end
  end.

Fixpoint scrape_pages (pages : list Z) : scraper unit :=
  match pages with
  | [] => mret tt
  | page :: rest => scrape_page page;; scrape_pages rest
  end.

(** Lines 82-111: the events, and the list returned unless a request
    raised. *)
Definition scrape_cmc_top_100 : list event * (exn + list (gmap string string)) :=
  let '(evs, r, all_coins) := scrape_pages (seqZ 1 5) [] in
  match r with
  | inl e => (evs, inl e)
  | inr _ => (evs ++ [EvInfoTotal (length all_coins)], inr all_coins)
  end.

(** Lines 136-142, on the file system. *)
Definition main : stmt (gmap string (list row)) (event + Os.event) unit := λ fs,
  match scrape_cmc_top_100 with
  | (evs, inl e) => (inl <$> evs, inl e, fs)
  | (evs, inr coins) =>
      let top_100 := take 100 coins in
      let '(evs', r, fs') := write_to_csv top_100 OUTPUT_CSV fs in
      ((inl <$> evs) ++ (inr <$> evs'), r, fs')
  end.

(** The request of the page is refused: no response, or a 4xx or 5xx
    status. *)
Definition page_fails (page : Z) : bool :=
  match web (page_url page) with
  | NoPage _ => true
  | Page status _ => bool_decide (400 ≤ status < 600)
  end.

(** The coins that the rows of the page give, in the order of the rows. *)
Definition page_coins (page : Z) : list (gmap string string) :=
  match web (page_url page) with
  | Page _ (Some rows) => filter (λ data, data ≠ ∅) (parse_coin_row <$> rows)
  | _ => []
  end.

(** The page has a [tbody]. *)
Definition page_has_table (page : Z) : bool :=
  match web (page_url page) with
  | Page _ (Some _) => true
  | _ => false
  end.

End Scraper.

(** The URLs requested, in order, and the number of one-second pauses. *)
Definition requests (evs : list event) : list string :=
  omap (λ ev, match ev with EvGet url => Some url | _ => None end) evs.

Definition pauses (evs : list event) : nat :=
  length (omap (λ ev, match ev with EvSleep _ => Some tt | _ => None end) evs).

(** [str.split] and [str.isdigit] on ASCII text, to run examples: fields
    between runs of blanks, and a non-empty run of decimal digits. *)
Definition is_blank (c : ascii) : bool :=
  bool_decide (c ∈ [" "; "009"; "010"; "011"; "012"; "013";
                    "028"; "029"; "030"; "031"]%char).

Fixpoint ascii_fields (word : list ascii) (s : list ascii) : list string :=
  match s with
  | [] => match word with [] => [] | _ => [string_of_list_ascii (rev word)] end
  | c :: s' =>
      if is_blank c
      then match word with
           | [] => ascii_fields [] s'
           | _ => string_of_list_ascii (rev word) :: ascii_fields [] s'
           end
      else ascii_fields (c :: word) s'
  end.

Definition ascii_split (s : string) : list string :=
  ascii_fields [] (list_ascii_of_string s).

Definition ascii_isdigit (s : string) : bool :=
  bool_decide (s ≠ "")
  && forallb (λ c, bool_decide (48 ≤ nat_of_ascii c ≤ 57)%nat) (list_ascii_of_string s).

(** A site to run examples: the first page has a table of four rows, one of
    them a coin with its name and symbol in [p] tags, one a coin with both
    in the text of the cell, one without a symbol and one too short; the
    third page has no [tbody]. *)
Definition example_rows : list tr :=
  [ [Td "" []; Td "1" []; Td "BitcoinBTC" ["Bitcoin"; "BTC"];
     Td "$43,210.50" []; Td "1.25%" []; Td "" []; Td "" [];
     Td "$850,000,000,000" []];
    [Td "" []; Td "2" []; Td "Ethereum ETH" []; Td "$2,300.1" [];
     Td "-0.4%" []; Td "" []; Td "" []; Td "$270,000,000" []];
    [Td "" []; Td "3" []; Td "Tether" []; Td "$1.00" []; Td "0%" [];
     Td "" []; Td "" []; Td "$1" []];
    [Td "" []; Td "4" []] ].

Definition example_web (url : string) : page :=
  if bool_decide (url = page_url 1) then Page 200 (Some example_rows)
  else if bool_decide (url = page_url 3) then Page 200 None
  else Page 200 (Some []).

(** The same site when its fourth page answers 503. *)
Definition example_web_down (url : string) : page :=
  if bool_decide (url = page_url 4) then Page 503 None else example_web url.

End CmcHtmlScraper.

Module CmcJsonScraper.

Definition OUTPUT_CSV : string := "data/cmc_top100_json.csv".

(** The dict that [fetch_top_100_coingecko] appends for a coin (lines
    54-61); the rank is an [int] there, written through [str]. *)
Definition coin_row (rank name symbol price change_24h market_cap : string)
    : gmap string string :=
  <[ "Rank" := rank ]> (<[ "Name" := name ]> (<[ "Symbol" := symbol ]>
  (<[ "Price (USD)" := price ]> (<[ "24h % Change" := change_24h ]>
  {[ "Market Cap (USD)" := market_cap ]})))).

(** Lines 67-84. *)
Definition write_to_csv (coins : list (gmap string string)) (filename : string)
    : io unit :=
  match coins with
  | [] => emit (EvLogError "No data to write.")
  | _ =>
      makedirs (dirname filename);;
      let fieldnames := ["Rank"; "Name"; "Symbol"; "Price (USD)";
                         "24h % Change"; "Market Cap (USD)"] in
      with_open filename (
        writeheader filename fieldnames;;
        writerows filename fieldnames coins);;
      emit (EvLogInfo (length coins) filename)
  end.

(** *** The answer of the API and its coins *)

Definition JSON_API_URL : string :=
  "https://api.coingecko.com/api/v3/coins/markets".

(** What reading one coin can raise; line 62 catches every one of them. *)
Inductive coin_error :=
| Raised (e : exn)
| AttributeError.

#[export] Instance coin_error_ret : MRet (sum coin_error) := λ A x, inr x.
#[export] Instance coin_error_bind : MBind (sum coin_error) := λ A B f m,
  match m with
  | inl e => inl e
  | inr x => f x
  end.

Inductive event :=
| EvGet (url : string)
| EvInfoFetched (coins : nat)
| EvWarning (e : coin_error).

(** The exceptions of the warnings, in their order. *)
Definition warnings (evs : list event) : list coin_error :=
  omap (λ ev, match ev with EvWarning e => Some e | _ => None end) evs.

Fixpoint skip_char (c : ascii) (l : list ascii) : list ascii :=
  match l with
  | x :: l' => if bool_decide (x = c) then skip_char c l' else l
  | [] => []
  end.

(** [s.rstrip(c)] for a one-byte [c]. *)
Definition rstrip (c : ascii) (s : string) : string :=
  string_of_list_ascii (rev (skip_char c (rev (list_ascii_of_string s)))).

Section Fetch.

Context {num : Type}.
(** [f"{x:.Nf}"] on a number; an [int] too large for a [float] raises. *)
Variable format_f : nat → num → exn + string.
(** [str.upper], which goes by the Unicode tables. *)
Variable upper : string → string.
(** [str(v)], as [csv.writer] applies it to a cell that is neither [None]
    nor a [str]. *)
Variable str : @PricePulse.pyval num → string.
(** The characters of a [str], as iterating over it gives them. *)
Variable chars : string → list string.

Abbreviation pyval := (@PricePulse.pyval num).

(** [coin[key]]. *)
Definition item (coin : pyval) (key : string) : coin_error + pyval :=
  match PricePulse.subscript coin key with
  | inl e => inl (Raised e)
  | inr v => inr v
  end.

(** [f"{v:.Nf}"]: a [str] has no format code [f], [None] and the
    containers take no format string. *)
Definition format_fixed (digits : nat) (v : pyval) : coin_error + string :=
  match v with
  | PricePulse.PNum x =>
      match format_f digits x with
      | inl e => inl (Raised e)
      | inr text => inr text
      end
  | PricePulse.PStr _ => inl (Raised ValueError)
  | _ => inl (Raised TypeError)
  end.

(** [v.upper()]. *)
Definition call_upper (v : pyval) : coin_error + string :=
  match v with
  | PricePulse.PStr s => inr (upper s)
  | _ => inl AttributeError
  end.

(** The text [csv.writer] writes for a cell. *)
Definition csv_text (v : pyval) : string :=
  match v with
  | PricePulse.PNone => ""
  | PricePulse.PStr s => s
  | _ => str v
  end.

(** Lines 51-61: the dict of one coin, its cells as [csv.writer] writes
    them. *)
Definition coin_dict (idx : Z) (coin : pyval) : coin_error + gmap string string :=
  price ← item coin "current_price";
  percent_change_24h ← item coin "price_change_percentage_24h";
  market_cap ← item coin "market_cap";
  name ← item coin "name";
  symbol ← item coin "symbol";
  symbol ← call_upper symbol;
  price ← format_fixed 8 price;
  percent_change_24h ← format_fixed 2 percent_change_24h;
  market_cap ← format_fixed 2 market_cap;
  mret (coin_row (pretty idx) (csv_text name) symbol
          (rstrip "." (rstrip "0" price))
          percent_change_24h
          (rstrip "." (rstrip "0" market_cap))).

(** What [len(data)] counts and [enumerate(data, ...)] goes through: the
    elements of a list, the keys of an object, the characters of a string;
    [None] and numbers have no length. *)
Definition elements (data : pyval) : exn + list pyval :=
  match data with
  | PricePulse.PList xs => inr xs
  | PricePulse.PDict d => inr (PricePulse.PStr <$> (map_to_list d).*1)
  | PricePulse.PStr s => inr (PricePulse.PStr <$> chars s)
  | _ => inl TypeError
  end.

(** The statements of [fetch_top_100_coingecko]: over [coins]. *)
Definition fetcher : Type → Type := stmt (list (gmap string string)) event.

(** Lines 49-63, from index [idx] on. *)
Fixpoint read_coins (idx : Z) (data : list pyval) : fetcher unit :=
  match data with
  | [] => mret tt
  | coin :: rest =>
      match coin_dict idx coin with
      | inr record => λ coins, ([], inr tt, coins ++ [record])
      | inl e => emit (EvWarning e)
      end;;
      read_coins (idx + 1) rest
  end.

(** Lines 28-64 on the result of the [requests.get]: the events, and the
    list returned unless something raised. *)
Definition fetch_top_100_coingecko (r : PricePulse.http_result)
    : list event * (exn + list (gmap string string)) :=
  let body : fetcher unit :=
    emit (EvGet JSON_API_URL);;
    match r with
    | PricePulse.NoResponse f => lift (inl (PricePulse.exn_of_net f))
    | PricePulse.Response status body =>
        lift (PricePulse.raise_for_status status);;
        data ← lift (PricePulse.json body);
        xs ← lift (elements data);
        emit (EvInfoFetched (length xs));;
        read_coins 1 xs
    end in
  let '(evs, r, coins) := body [] in
  match r with
  | inl e => (evs, inl e)
  | inr _ => (evs, inr coins)
  end.

(** Lines 87-92, on the file system. *)
Definition main (r : PricePulse.http_result)
    : stmt (gmap string (list row)) (event + Os.event) unit := λ fs,
  match fetch_top_100_coingecko r with
  | (evs, inl e) => (inl <$> evs, inl e, fs)
  | (evs, inr coins) =>
      let '(evs', r, fs') := write_to_csv coins OUTPUT_CSV fs in
      ((inl <$> evs) ++ (inr <$> evs'), r, fs')
  end.

End Fetch.

(** *** An instance on rationals and ASCII text, to run examples *)

(** [str.upper] on ASCII text. *)
Definition ascii_upper (s : string) : string :=
  string_of_list_ascii
    ((λ c, if bool_decide (97 ≤ nat_of_ascii c ≤ 122)%nat
           then ascii_of_nat (nat_of_ascii c - 32) else c)
       <$> list_ascii_of_string s).

(** The characters of ASCII text. *)
Definition ascii_chars (s : string) : list string :=
  (λ c, String c EmptyString) <$> list_ascii_of_string s.

(** [f"{x:.Nf}"] on a number of the answer.  A rational stands for the
    number that the JSON text gives: an integer for an [int], any other
    literal for the [float] nearest to it, which is the one that is
    formatted. *)
Definition q_format_f (digits : nat) (x : Q) : exn + string :=
  PricePulse.overflow (Floats.format_f digits false x).

(** [str] of a cell of the examples, where every name is a string or
    [None]. *)
Definition q_str (v : @PricePulse.pyval Q) : string :=
  match v with
  | PricePulse.PStr s => s
  | _ => "None"
  end.

Definition q_coin_dict := coin_dict q_format_f ascii_upper q_str.
Definition q_fetch_top_100_coingecko :=
  fetch_top_100_coingecko q_format_f ascii_upper q_str ascii_chars.
Definition q_main := main q_format_f ascii_upper q_str ascii_chars.

(** One coin of the answer of the API. *)
Definition market (name symbol : string) (price change cap : Q)
    : @PricePulse.pyval Q :=
  PricePulse.PDict
    (<[ "name" := PricePulse.PStr name ]>
    (<[ "symbol" := PricePulse.PStr symbol ]>
    (<[ "current_price" := PricePulse.PNum price ]>
    (<[ "price_change_percentage_24h" := PricePulse.PNum change ]>
    {[ "market_cap" := PricePulse.PNum cap ]})))).

(** An answer whose second coin has no price yet. *)
Definition example_answer : PricePulse.http_result :=
  PricePulse.Response 200 (Some (PricePulse.PList
    [ market "Bitcoin" "btc" 43210.5%Q 1.234%Q 850000000000%Q;
      PricePulse.PDict
        (<[ "current_price" := PricePulse.PNone ]>
           (match market "Newcoin" "new" 0%Q 0%Q 0%Q with
            | PricePulse.PDict d => d
            | _ => ∅
            end));
      market "Ethereum" "eth" 2300.125%Q (-0.405)%Q 270000000000%Q ])).

End CmcJsonScraper.

(** ** The words of the statements about the CSV files *)

(** The six columns, in the order of the header. *)
Definition columns : list string :=
  ["Rank"; "Name"; "Symbol"; "Price (USD)"; "24h % Change"; "Market Cap (USD)"].

(** A coin record: a dict with no key beside the column names, as
    [parse_coin_row] and [fetch_top_100_coingecko] build them. *)
Definition coin_record (record : gmap string string) : Prop :=
  dom record ⊆ list_to_set columns.

#[export] Instance coin_record_dec record : Decision (coin_record record).
Proof. unfold coin_record. apply _. Defined.

(** An output path: a file name inside a directory, as both [OUTPUT_CSV]
    are; the name is not one of the two that every directory holds, and no
    character of the path is NUL. *)
Definition output_path (filename : string) : Prop :=
  dirname filename ≠ "" ∧ (basename filename ∉ [""; "."; ".."])
  ∧ has_nul filename = false.

#[export] Instance output_path_dec filename : Decision (output_path filename).
Proof. unfold output_path. apply _. Defined.


(** * Properties of the poller *)

Import PricePulse.

(** ** The deque *)

Section Deque.

Context {A : Type}.
Implicit Types (d l : list A) (x : A).

Lemma deque_append_length maxlen d x :
  (length d ≤ maxlen)%nat → (length (deque_append maxlen d x) ≤ maxlen)%nat.
Proof.
  intros Hd. unfold deque_append. cbn zeta.
  case_decide as Hfull; rewrite ?length_drop, length_app in *; simpl in *; lia.
Qed.

Lemma deque_append_room maxlen d x :
  (length d < maxlen)%nat → deque_append maxlen d x = d ++ [x].
Proof.
  intros Hd. unfold deque_append. cbn zeta.
  case_decide as Hfull; [|done]. rewrite length_app in Hfull. simpl in Hfull. lia.
Qed.

Lemma deque_append_full maxlen d x :
  length d = maxlen → deque_append maxlen d x = drop 1 (d ++ [x]).
Proof.
  intros Hd. unfold deque_append. cbn zeta.
  case_decide as Hfull; [done|]. rewrite length_app in Hfull. simpl in Hfull. lia.
Qed.

Lemma last_n_length n l : length (last_n n l) = (length l `min` n)%nat.
Proof. unfold last_n. rewrite length_drop. lia. Qed.

Lemma last_n_all n l : (length l ≤ n)%nat → last_n n l = l.
Proof. intros Hl. unfold last_n. by replace (length l - n)%nat with O by lia. Qed.

(** Appending to the window of a history gives the window of the longer
    history. *)
Lemma deque_append_last_n n l x :
  deque_append n (last_n n l) x = last_n n (l ++ [x]).
Proof.
  destruct (decide (length l < n)%nat) as [Hlt|Hge].
  - rewrite (last_n_all _ l) by lia.
    rewrite deque_append_room by done.
    by rewrite last_n_all by (rewrite length_app; simpl; lia).
  - rewrite deque_append_full by (rewrite last_n_length; lia).
    unfold last_n. rewrite <- drop_app_le by lia.
    rewrite drop_drop, length_app. simpl. f_equal. lia.
Qed.

Lemma foldl_deque_append_last_n n h l :
  foldl (deque_append n) (last_n n h) l = last_n n (h ++ l).
Proof.
  revert h. induction l as [|x l IH]; intros h; simpl.
  - by rewrite app_nil_r.
  - rewrite deque_append_last_n, IH. by rewrite <- app_assoc.
Qed.

Lemma record_all_last_n l : record_all l = last_n MAXLEN l.
Proof.
  unfold record_all. change [] with (last_n MAXLEN (@nil A)).
  by rewrite foldl_deque_append_last_n.
Qed.

Lemma last_n_min n l : last_n (length l `min` n) l = last_n n l.
Proof.
  unfold last_n. f_equal. lia.
Qed.

Lemma record_all_bounded (vs : list A) : (length (record_all vs) ≤ 10)%nat.
Proof. rewrite record_all_last_n, last_n_length. unfold MAXLEN. lia. Qed.

Lemma deque_append_evicts d x :
  length d = 10%nat →
  deque_append MAXLEN d x = drop 1 d ++ [x]
  ∧ length (deque_append MAXLEN d x) = 10%nat.
Proof.
  intros Hd. rewrite deque_append_full by done.
  rewrite drop_app_le by lia. split; [done|].
  rewrite length_app, length_drop. simpl. lia.
Qed.

Lemma record_all_eleven (v : A) (vs : list A) :
  length vs = 10%nat →
  record_all (v :: vs) = vs ∧ length (record_all (v :: vs)) = 10%nat.
Proof.
  intros Hvs. rewrite record_all_last_n. unfold last_n, MAXLEN.
  simpl length. rewrite Hvs. by simpl.
Qed.

End Deque.

(** Unfolds the statement combinators down to the triple they compute. *)
Ltac run_prog :=
  repeat (progress (
    cbn;
    unfold mbind, mret, stmt_bind, stmt_ret, exn_bind, exn_ret,
      read_should_shutdown, call_fetch_price, price_window_append,
      set_price_window, set_consecutive_failures, set_backoff,
      sleep, emit, get, put, lift)).

Section PollerFacts.

Context {num stamp : Type}.
Variable py_sum : list num → option num.
Variable py_truediv : num → Z → option num.
Variable format_2f : num → option string.
Variable utcfromtimestamp : num → exn + stamp.

Local Abbreviation fetch_price := (fetch_price utcfromtimestamp).
Local Abbreviation iteration :=
  (iteration py_sum py_truediv format_2f utcfromtimestamp).
Local Abbreviation try_body :=
  (try_body py_sum py_truediv format_2f utcfromtimestamp).
Local Abbreviation main_loop :=
  (main_loop py_sum py_truediv format_2f utcfromtimestamp).
Local Abbreviation main := (main py_sum py_truediv format_2f utcfromtimestamp).
Local Abbreviation succeeds :=
  (succeeds py_sum py_truediv format_2f utcfromtimestamp).
Local Abbreviation sample := (sample utcfromtimestamp).
Local Abbreviation fails := (fails utcfromtimestamp).
Local Abbreviation mean := (mean py_sum py_truediv).
Local Abbreviation sma_expr := (sma_expr py_sum py_truediv).
Local Abbreviation arithmetic_mean := (arithmetic_mean py_sum py_truediv).
Local Abbreviation poll_wait := (@poll_wait num stamp).

Implicit Types (w : @world num) (a : @attempt num) (tr : list (@event num stamp)).

(** *** The wait between two polls *)

Lemma poll_wait_S sigint n :
  poll_wait sigint (S n) =
    (stop ← read_should_shutdown sigint;
     if stop : bool then mret tt
     else sleep PollSleep 100;; poll_wait sigint n).
Proof. done. Qed.

Local Arguments PricePulse.poll_wait : simpl never.

Lemma poll_wait_spec sigint n w :
  ∃ tr t, poll_wait sigint n w = (tr, inr tt, World (locals w) t)
          ∧ Forall (λ ev, is_poll_sleep ev = true) tr.
Proof.
  revert w. induction n as [|n IH]; intros w.
  - exists [], (clock w). by destruct w.
  - rewrite poll_wait_S. run_prog. destruct (should_shutdown sigint (clock w)).
    + exists [], (clock w). by destruct w.
    + run_prog. destruct (IH (World (locals w) (clock w + 100))) as (tr & t & -> & Htr).
      exists (EvSleep PollSleep (clock w) 100 :: tr), t. split; [done|].
      by constructor.
Qed.

(** *** One turn of the loop, by what [fetch_price] does *)

Lemma should_shutdown_mono sigint t t' :
  t ≤ t' → should_shutdown sigint t = true → should_shutdown sigint t' = true.
Proof.
  destruct sigint as [T|]; [|done]. simpl. intros Hle Ht.
  apply bool_decide_eq_true_1 in Ht. apply bool_decide_eq_true_2. lia.
Qed.

(** The wait between two polls ends with the flag set, or after all its
    sleeps. *)
Lemma poll_wait_end sigint n w :
  ∃ tr w',
    poll_wait sigint n w = (tr, inr tt, w')
    ∧ locals w' = locals w
    ∧ Forall (λ ev, is_poll_sleep ev = true) tr
    ∧ (should_shutdown sigint (clock w') = true ∧ clock w ≤ clock w'
       ∨ clock w' = clock w + 100 * Z.of_nat n).
Proof.
  revert w. induction n as [|n IH]; intros w.
  - exists [], w. unfold PricePulse.poll_wait. cbn. repeat split; [done|].
    right. lia.
  - rewrite poll_wait_S. run_prog.
    destruct (should_shutdown sigint (clock w)) eqn:Hflag.
    + exists [], w. cbn. repeat split; [done|]. left. split; [done|lia].
    + run_prog.
      destruct (IH (World (locals w) (clock w + 100)))
        as (tr & w' & -> & Hlocals & Htr & Hend).
      exists (EvSleep PollSleep (clock w) 100 :: tr), w'. simpl in *.
      split; [done|]. split; [done|]. split; [by constructor|].
      destruct Hend as [[? ?]|?]; [left; split; [done|lia]|right; lia].
Qed.

Lemma deque_append_nonempty {A} (d : list A) (x : A) :
  (0 < length (deque_append MAXLEN d x))%nat.
Proof.
  unfold deque_append, MAXLEN. cbn zeta.
  case_decide as Hfull; rewrite ?length_drop, length_app in *; simpl in *; lia.
Qed.

Lemma mean_nonempty (d : list num) :
  (0 < length d)%nat → mean d = overflow (arithmetic_mean d).
Proof.
  intros Hlen. unfold PricePulse.mean, PricePulse.arithmetic_mean.
  destruct (py_sum d) as [total|]; [|done]. cbn.
  by rewrite bool_decide_eq_false_2 by lia.
Qed.

Lemma sma_expr_after_append (d : list num) (x : num) :
  sma_expr (deque_append MAXLEN d x) x
  = overflow (arithmetic_mean (deque_append MAXLEN d x)).
Proof.
  pose proof (deque_append_nonempty d x) as Hlen.
  unfold PricePulse.sma_expr, deque_bool.
  rewrite bool_decide_eq_true_2 by done. by apply mean_nonempty.
Qed.

Lemma iteration_fails sigint a w e :
  fetch_price (response a) = inl e → main_except e = true →
  iteration sigint a w =
    ([EvFetch (clock w); EvWarning e; EvRetryInfo (backoff (locals w));
      EvSleep BackoffSleep (clock w + Z.of_N (latency a))
        (1000 * backoff (locals w))]
     ++ (if bool_decide (5 ≤ consecutive_failures (locals w) + 1)
         then [EvError5] else []),
     inr tt,
     World (State (price_window (locals w))
                  (consecutive_failures (locals w) + 1)
                  (Z.min (backoff (locals w) * 2) 60))
           (clock w + Z.of_N (latency a) + 1000 * backoff (locals w))).
Proof.
  intros Hfetch Hcatch.
  unfold PricePulse.iteration, try_except, PricePulse.try_body.
  run_prog. rewrite Hfetch, Hcatch. unfold handler. run_prog.
  by case_bool_decide.
Qed.

Lemma iteration_uncaught sigint a w e :
  fetch_price (response a) = inl e → main_except e = false →
  iteration sigint a w =
    ([EvFetch (clock w)], inl e,
     World (locals w) (clock w + Z.of_N (latency a))).
Proof.
  intros Hfetch Hcatch.
  unfold PricePulse.iteration, try_except, PricePulse.try_body.
  run_prog. by rewrite Hfetch, Hcatch.
Qed.

Lemma iteration_not_number sigint a w p ts :
  fetch_price (response a) = inr (p, ts) → (∀ x, p ≠ PNum x) →
  iteration sigint a w =
    ([EvFetch (clock w)], inl TypeError,
     World (locals w) (clock w + Z.of_N (latency a))).
Proof.
  intros Hfetch Hp.
  unfold PricePulse.iteration, try_except, PricePulse.try_body.
  run_prog. rewrite Hfetch.
  by destruct p; run_prog; [|exfalso; eapply Hp| | |].
Qed.

(** A turn whose fetch returns a number: the price is recorded; then the
    status line is printed and the wait follows, or the average or its
    formatting overflows and the exception leaves the loop. *)
Lemma iteration_number sigint a w x ts :
  fetch_price (response a) = inr (PNum x, ts) →
  let d := deque_append MAXLEN (price_window (locals w)) x in
  (∃ sma tr t,
      arithmetic_mean d = Some sma
      ∧ is_Some (format_2f x) ∧ is_Some (format_2f sma)
      ∧ iteration sigint a w =
          (EvFetch (clock w) :: EvStatus ts x sma :: tr,
           inr tt, World (State d 0 1) t)
      ∧ Forall (λ ev, is_poll_sleep ev = true) tr
      ∧ (should_shutdown sigint t = true ∧ clock w ≤ t
         ∨ clock w + 1000 ≤ t))
  ∨ (∃ w',
      iteration sigint a w = ([EvFetch (clock w)], inl OverflowError, w')
      ∧ (arithmetic_mean d = None ∨ format_2f x = None
         ∨ ∃ sma, arithmetic_mean d = Some sma ∧ format_2f sma = None)).
Proof.
  intros Hfetch d.
  unfold PricePulse.iteration, try_except, PricePulse.try_body.
  run_prog. rewrite Hfetch. run_prog.
  rewrite sma_expr_after_append. fold d.
  destruct (arithmetic_mean d) as [sma|] eqn:Hmean; run_prog;
    [|right; eexists; split; [done|by left]].
  destruct (format_2f x) as [price_text|] eqn:Hprice; run_prog;
    [|right; eexists; split; [done|right; by left]].
  destruct (format_2f sma) as [sma_text|] eqn:Hsma; run_prog;
    [|right; eexists; split; [done|right; right; by exists sma]].
  left. set (w1 := World _ _).
  destruct (poll_wait_end sigint 10 w1)
    as (tr & w' & Hwait & Hlocals & Htr & Hend).
  rewrite Hwait. destruct w' as [s' t]. cbn in Hlocals. subst s'.
  exists sma, tr, t. split; [done|]. split; [done|]. split; [done|].
  split; [done|]. split; [done|]. subst w1. cbn in Hend.
  destruct Hend as [[? ?]|?]; [left; split; [done|lia]|right; lia].
Qed.

(** Every turn is one of three: a sample is recorded and shown, a failure
    is absorbed, or an exception that line 102 does not list leaves the
    loop after the call. *)
Lemma iteration_cases sigint a w :
  (∃ x ts sma tr t,
      sample a = Some x ∧ fails a = false
      ∧ arithmetic_mean (deque_append MAXLEN (price_window (locals w)) x)
        = Some sma
      ∧ iteration sigint a w =
          (EvFetch (clock w) :: EvStatus ts x sma :: tr,
           inr tt,
           World (State (deque_append MAXLEN (price_window (locals w)) x) 0 1) t)
      ∧ Forall (λ ev, is_poll_sleep ev = true) tr
      ∧ (should_shutdown sigint t = true ∧ clock w ≤ t
         ∨ clock w + 1000 ≤ t))
  ∨ (∃ e,
      sample a = None ∧ fails a = true
      ∧ fetch_price (response a) = inl e ∧ main_except e = true)
  ∨ (∃ e w',
      fails a = false ∧ main_except e = false
      ∧ iteration sigint a w = ([EvFetch (clock w)], inl e, w')).
Proof.
  unfold PricePulse.sample, PricePulse.fails.
  destruct (fetch_price (response a)) as [e|[p ts]] eqn:Hfetch.
  - destruct (main_except e) eqn:Hcatch.
    + right; left. by exists e.
    + right; right. eexists e, _. by rewrite (iteration_uncaught _ _ _ e).
  - destruct p as [|x| | |].
    2:{ destruct (iteration_number sigint a w x ts Hfetch)
          as [(sma & tr & t & Hmean & _ & _ & Hit & Htr & Hend)|(w' & Hit & _)].
        - left. by exists x, ts, sma, tr, t.
        - right; right. by exists OverflowError, w'. }
    all: right; right; eexists TypeError, _.
    all: by rewrite (iteration_not_number _ _ _ _ ts Hfetch).
Qed.

(** *** The loop *)

Lemma poll_sleeps_quiet tr :
  Forall (λ ev, is_poll_sleep ev = true) tr →
  statuses tr = [] ∧ backoff_waits tr = [] ∧ fetch_times tr = []
  ∧ escalations tr = O.
Proof.
  induction 1 as [|ev tr Hev _ IH]; [done|].
  by destruct ev as [| | | |[] ? ?|].
Qed.

Lemma statuses_sample_turn c ts x m tr tr' :
  statuses tr = [] →
  statuses ((EvFetch c :: EvStatus ts x m :: tr) ++ tr') = (x, m) :: statuses tr'.
Proof. intros Hq. unfold statuses in *. simpl. by rewrite omap_app, Hq. Qed.

Lemma statuses_failed_turn c e b t ms (esc : bool) tr' :
  statuses (([EvFetch c; EvWarning e; EvRetryInfo b; EvSleep BackoffSleep t ms]
             ++ (if esc then [EvError5] else [])) ++ tr')
  = statuses tr'.
Proof. unfold statuses. rewrite omap_app. by destruct esc. Qed.

Lemma main_loop_shutdown sigint script w :
  should_shutdown sigint (clock w) = true →
  main_loop sigint script w = ([], Exit 0).
Proof. intros Hflag. destruct script; simpl; by rewrite Hflag. Qed.

Lemma main_loop_nil sigint w :
  should_shutdown sigint (clock w) = false →
  main_loop sigint [] w = ([], Polling w).
Proof. intros Hflag. simpl. by rewrite Hflag. Qed.

Lemma main_loop_cons sigint a script w :
  should_shutdown sigint (clock w) = false →
  main_loop sigint (a :: script) w =
    match iteration sigint a w with
    | (tr, inr _, w') =>
        let '(tr', o) := main_loop sigint script w' in (tr ++ tr', o)
    | (tr, inl e, _) => (tr, Traceback e)
    end.
Proof. intros Hflag. simpl. by rewrite Hflag. Qed.

Lemma main_loop_fails sigint a script w e :
  should_shutdown sigint (clock w) = false →
  fetch_price (response a) = inl e → main_except e = true →
  main_loop sigint (a :: script) w =
    let w' := World (State (price_window (locals w))
                           (consecutive_failures (locals w) + 1)
                           (Z.min (backoff (locals w) * 2) 60))
                    (clock w + Z.of_N (latency a) + 1000 * backoff (locals w)) in
    (([EvFetch (clock w); EvWarning e; EvRetryInfo (backoff (locals w));
       EvSleep BackoffSleep (clock w + Z.of_N (latency a))
         (1000 * backoff (locals w))]
      ++ (if bool_decide (5 ≤ consecutive_failures (locals w) + 1)
          then [EvError5] else []))
     ++ (main_loop sigint script w').1,
     (main_loop sigint script w').2).
Proof.
  intros Hflag Hfetch Hcatch. rewrite main_loop_cons by done.
  rewrite (iteration_fails _ _ _ e) by done. cbn zeta.
  by destruct (main_loop sigint script _).
Qed.

(** The status lines of a run, against the samples of its script: line [k]
    shows sample [k] and the mean of the window of the history up to it. *)
Lemma statuses_window sigint script w hist k p s :
  price_window (locals w) = last_n MAXLEN hist →
  statuses (main_loop sigint script w).1 !! k = Some (p, s) →
  omap sample script !! k = Some p
  ∧ arithmetic_mean
      (last_n MAXLEN (hist ++ take (S k) (omap sample script))) = Some s.
Proof.
  revert w hist k. induction script as [|a script IH]; intros w hist k Hwin.
  { simpl. by destruct (should_shutdown _ _). }
  destruct (should_shutdown sigint (clock w)) eqn:Hflag.
  { by rewrite main_loop_shutdown. }
  destruct (iteration_cases sigint a w)
    as [(x & ts & sma & tr & t & Hs & _ & Hmean & Hit & Htr & _)
       |[(e & Hs & _ & Hfetch & Hcatch)|(e & w' & _ & _ & Hit)]].
  - rewrite main_loop_cons, Hit by done.
    destruct (main_loop sigint script _) as [tr' o] eqn:Hrest.
    destruct (poll_sleeps_quiet tr Htr) as (Hq & _).
    cbn [fst]. rewrite statuses_sample_turn by done.
    cbn [omap list_omap]. rewrite Hs.
    destruct k as [|k]; cbn [lookup list_lookup].
    + intros [= <- <-]. split; [done|].
      by rewrite Hwin, deque_append_last_n in Hmean.
    + intros Hk. rewrite Hwin, deque_append_last_n in Hrest.
      specialize (IH (World (State (last_n MAXLEN (hist ++ [x])) 0 1) t)
                     (hist ++ [x]) k eq_refl).
      rewrite Hrest in IH. destruct (IH Hk) as [? Hs']. split; [done|].
      by rewrite <- app_assoc in Hs'.
  - rewrite (main_loop_fails _ _ _ _ e) by done. cbn zeta. cbn [fst].
    rewrite statuses_failed_turn. cbn [omap list_omap]. rewrite Hs.
    by apply IH.
  - rewrite main_loop_cons, Hit by done. done.
Qed.

(** *** Consecutive failures *)

Lemma fails_inv a :
  fails a = true → ∃ e, fetch_price (response a) = inl e ∧ main_except e = true.
Proof.
  unfold PricePulse.fails. destruct (fetch_price (response a)) as [e|]; [|done].
  intros He. by exists e.
Qed.

Lemma nth_delay_S k : Z.min (nth_delay k * 2) 60 = nth_delay (S k).
Proof.
  unfold nth_delay. rewrite Nat2Z.inj_succ, Z.pow_succ_r by lia.
  pose proof (Z.pow_pos_nonneg 2 (Z.of_nat k)). lia.
Qed.

Lemma nth_delay_capped k : (6 ≤ k)%nat → nth_delay k = 60.
Proof.
  intros Hk. unfold nth_delay.
  assert (2 ^ 6 ≤ 2 ^ Z.of_nat k) by (apply Z.pow_le_mono_r; lia).
  change (2 ^ 6) with 64 in *. lia.
Qed.

Lemma backoff_waits_failed_turn c e b t ms (esc : bool) tr' :
  backoff_waits
    (([EvFetch c; EvWarning e; EvRetryInfo b; EvSleep BackoffSleep t ms]
      ++ (if esc then [EvError5] else [])) ++ tr')
  = ms :: backoff_waits tr'.
Proof. unfold backoff_waits. rewrite omap_app. by destruct esc. Qed.

Lemma escalations_failed_turn c e b t ms (esc : bool) tr' :
  escalations
    (([EvFetch c; EvWarning e; EvRetryInfo b; EvSleep BackoffSleep t ms]
      ++ (if esc then [EvError5] else [])) ++ tr')
  = ((if esc then 1 else 0) + escalations tr')%nat.
Proof. unfold escalations. rewrite omap_app, length_app. by destruct esc. Qed.

Lemma backoff_waits_sample_turn c ts x m tr tr' :
  Forall (λ ev, is_poll_sleep ev = true) tr →
  backoff_waits ((EvFetch c :: EvStatus ts x m :: tr) ++ tr') = backoff_waits tr'.
Proof.
  intros (_ & Hq & _)%poll_sleeps_quiet.
  unfold backoff_waits in *. simpl. by rewrite omap_app, Hq.
Qed.

Lemma escalations_sample_turn c ts x m tr tr' :
  Forall (λ ev, is_poll_sleep ev = true) tr →
  escalations ((EvFetch c :: EvStatus ts x m :: tr) ++ tr') = escalations tr'.
Proof.
  intros (_ & _ & _ & Hq)%poll_sleeps_quiet.
  unfold escalations in *. simpl. rewrite omap_app, length_app. lia.
Qed.

Lemma escalations_app tr tr' :
  escalations (tr ++ tr') = (escalations tr + escalations tr')%nat.
Proof. unfold escalations. by rewrite omap_app, length_app. Qed.

(** A run of absorbed failures with no interrupt: the loop is still turning,
    the window is as it was, and every failure has been counted. *)
Lemma run_of_failures script w :
  Forall (λ a, fails a = true) script →
  ∃ tr t b,
    main_loop None script w =
      (tr, Polling (World (State (price_window (locals w))
                                 (consecutive_failures (locals w)
                                  + Z.of_nat (length script))
                                 b)
                          t))
    ∧ Z.of_nat (escalations tr) =
        Z.max 0 (consecutive_failures (locals w) + Z.of_nat (length script) - 4)
        - Z.max 0 (consecutive_failures (locals w) - 4).
Proof.
  intros Hall. revert w.
  induction Hall as [|a script Ha _ IH]; intros w.
  - exists [], (clock w), (backoff (locals w)). rewrite main_loop_nil by done.
    destruct w as [[d c b] t]. simpl in *.
    rewrite Z.add_0_r. split; [done|]. unfold escalations. simpl. lia.
  - destruct (fails_inv a Ha) as (e & Hfetch & Hcatch).
    rewrite (main_loop_fails None a script w e) by done. cbn zeta.
    set (w1 := World _ _).
    destruct (IH w1) as (tr & t & b & Hrun & Hesc).
    rewrite Hrun. cbn [fst snd]. eexists _, t, b. split.
    + replace (consecutive_failures (locals w) + Z.of_nat (length (a :: script)))
        with (consecutive_failures (locals w) + 1 + Z.of_nat (length script))
        by (simpl length; lia).
      done.
    + rewrite escalations_failed_turn, Nat2Z.inj_add, Hesc. simpl.
      case_bool_decide; lia.
Qed.

(** The waits of such a run follow the doubling schedule from where the
    backoff stood. *)
Lemma waits_of_failures script w k :
  Forall (λ a, fails a = true) script →
  backoff (locals w) = nth_delay k →
  backoff_waits (main_loop None script w).1
  = (λ i, 1000 * nth_delay i) <$> seq k (length script).
Proof.
  intros Hall. revert w k.
  induction Hall as [|a script Ha _ IH]; intros w k Hb.
  - by rewrite main_loop_nil.
  - destruct (fails_inv a Ha) as (e & Hfetch & Hcatch).
    rewrite (main_loop_fails None a script w e) by done. cbn zeta. cbn [fst].
    rewrite backoff_waits_failed_turn, (IH _ (S k)).
    + simpl. by rewrite Hb.
    + simpl. by rewrite Hb, nth_delay_S.
Qed.

(** *** Runs in general *)

Lemma main_loop_success sigint a script w :
  should_shutdown sigint (clock w) = false → succeeds sigint a w →
  ∃ x ts sma tr t,
    let d := deque_append MAXLEN (price_window (locals w)) x in
    let w1 := World (State d 0 1) t in
    sample a = Some x
    ∧ main_loop sigint (a :: script) w =
        ((EvFetch (clock w) :: EvStatus ts x sma :: tr)
           ++ (main_loop sigint script w1).1,
         (main_loop sigint script w1).2)
    ∧ Forall (λ ev, is_poll_sleep ev = true) tr.
Proof.
  intros Hflag [Hfails Hreturns].
  destruct (iteration_cases sigint a w)
    as [(x & ts & sma & tr & t & Hs & _ & _ & Hit & Htr & _)
       |[(e & _ & ? & _)|(e & w' & _ & _ & Hit)]]; [|congruence|].
  - exists x, ts, sma, tr, t. cbn zeta. split; [done|]. split; [|done].
    rewrite main_loop_cons, Hit by done.
    by destruct (main_loop sigint script _).
  - by rewrite Hit in Hreturns.
Qed.

Lemma main_loop_app sigint s1 s2 w tr1 w1 :
  main_loop sigint s1 w = (tr1, Polling w1) →
  main_loop sigint (s1 ++ s2) w =
    (tr1 ++ (main_loop sigint s2 w1).1, (main_loop sigint s2 w1).2).
Proof.
  revert w tr1. induction s1 as [|a s1 IH]; intros w tr1.
  - simpl app.
    destruct (should_shutdown sigint (clock w)) eqn:Hflag.
    + by rewrite main_loop_shutdown.
    + rewrite main_loop_nil by done. intros [= <- <-].
      by destruct (main_loop sigint s2 w).
  - destruct (should_shutdown sigint (clock w)) eqn:Hflag.
    + by rewrite main_loop_shutdown.
    + simpl app. rewrite !main_loop_cons by done.
      destruct (iteration sigint a w) as [[tr [e|[]]] w']; [done|].
      destruct (main_loop sigint s1 w') as [tr' o] eqn:Hrest.
      intros [= <- ->]. rewrite (IH _ _ Hrest). cbn [fst snd].
      by rewrite app_assoc.
Qed.

(** The window at the end of a run that is still polling: the samples of the
    script recorded in order, and nothing else. *)
Lemma main_loop_window sigint script w tr w' :
  main_loop sigint script w = (tr, Polling w') →
  price_window (locals w')
  = foldl (deque_append MAXLEN) (price_window (locals w)) (omap sample script).
Proof.
  revert w tr. induction script as [|a script IH]; intros w tr.
  { simpl. destruct (should_shutdown _ _); [done|]. by intros [= _ ->]. }
  destruct (should_shutdown sigint (clock w)) eqn:Hflag.
  { by rewrite main_loop_shutdown. }
  destruct (iteration_cases sigint a w)
    as [(x & ts & sma & tr0 & t & Hs & _ & _ & Hit & Htr & _)
       |[(e & Hs & _ & Hfetch & Hcatch)|(e & w0 & _ & _ & Hit)]].
  - rewrite main_loop_cons, Hit by done. cbn [omap list_omap]. rewrite Hs.
    destruct (main_loop sigint script _) as [tr' o] eqn:Hrest.
    intros [= _ ->]. by rewrite (IH _ _ Hrest).
  - rewrite (main_loop_fails _ _ _ _ e) by done. cbn zeta.
    cbn [omap list_omap]. rewrite Hs.
    destruct (main_loop sigint script _) as [tr' o] eqn:Hrest.
    cbn [fst snd]. intros [= _ ->]. by rewrite (IH _ _ Hrest).
  - by rewrite main_loop_cons, Hit by done.
Qed.

(** A run that is still polling has printed one status line per sample of
    its script, in order. *)
Lemma statuses_complete sigint script w tr w' :
  main_loop sigint script w = (tr, Polling w') →
  (statuses tr).*1 = omap sample script.
Proof.
  revert w tr. induction script as [|a script IH]; intros w tr.
  { simpl. destruct (should_shutdown _ _); [done|]. by intros [= <- _]. }
  destruct (should_shutdown sigint (clock w)) eqn:Hflag.
  { by rewrite main_loop_shutdown. }
  destruct (iteration_cases sigint a w)
    as [(x & ts & sma & tr0 & t & Hs & _ & _ & Hit & Htr & _)
       |[(e & Hs & _ & Hfetch & Hcatch)|(e & w0 & _ & _ & Hit)]].
  - rewrite main_loop_cons, Hit by done. cbn [omap list_omap]. rewrite Hs.
    destruct (main_loop sigint script _) as [tr' o] eqn:Hrest.
    intros Heq. pose proof (f_equal fst Heq) as Hfst.
    pose proof (f_equal snd Heq) as Ho. cbn [fst snd] in Hfst, Ho. subst tr o.
    destruct (poll_sleeps_quiet tr0 Htr) as (Hq & _).
    rewrite statuses_sample_turn by done.
    simpl. f_equal. by eapply IH.
  - rewrite (main_loop_fails _ _ _ _ e) by done. cbn zeta.
    cbn [omap list_omap]. rewrite Hs.
    destruct (main_loop sigint script _) as [tr' o] eqn:Hrest.
    cbn [fst snd]. intros Heq. pose proof (f_equal fst Heq) as Hfst.
    pose proof (f_equal snd Heq) as Ho. cbn [fst snd] in Hfst, Ho. subst tr o.
    rewrite statuses_failed_turn. by eapply IH.
  - by rewrite main_loop_cons, Hit by done.
Qed.

Lemma fetch_times_iteration sigint a w :
  fetch_times (iteration sigint a w).1.1 = [clock w].
Proof.
  destruct (iteration_cases sigint a w)
    as [(x & ts & sma & tr0 & t & Hs & _ & _ & Hit & Htr & _)
       |[(e & Hs & _ & Hfetch & Hcatch)|(e & w0 & _ & _ & Hit)]].
  - rewrite Hit. destruct (poll_sleeps_quiet tr0 Htr) as (_ & _ & Hq & _).
    cbn [fst]. unfold fetch_times in *. cbn [omap list_omap]. by rewrite Hq.
  - rewrite (iteration_fails _ _ _ e) by done. by case_bool_decide.
  - by rewrite Hit.
Qed.

(** Every call of [fetch_price] follows a read of the flag that found it
    unset. *)
Lemma fetch_times_unflagged sigint script w t :
  t ∈ fetch_times (main_loop sigint script w).1 →
  should_shutdown sigint t = false.
Proof.
  revert w. induction script as [|a script IH]; intros w.
  { simpl. destruct (should_shutdown _ _); by intros ?%elem_of_nil. }
  destruct (should_shutdown sigint (clock w)) eqn:Hflag.
  { rewrite main_loop_shutdown by done. by intros ?%elem_of_nil. }
  rewrite main_loop_cons by done.
  pose proof (fetch_times_iteration sigint a w) as Hturn.
  destruct (iteration sigint a w) as [[tr [e|[]]] w']; cbn [fst snd] in *.
  - rewrite Hturn. by intros ->%list_elem_of_singleton.
  - specialize (IH w'). destruct (main_loop sigint script w') as [tr' o].
    cbn [fst] in *. unfold fetch_times in *. rewrite omap_app, Hturn.
    intros [->%list_elem_of_singleton|Hin]%elem_of_app; auto.
Qed.

Lemma exit_status_zero sigint script w status :
  (main_loop sigint script w).2 = Exit status → status = 0.
Proof.
  revert w. induction script as [|a script IH]; intros w.
  { simpl. destruct (should_shutdown _ _); [|done]. by intros [= <-]. }
  destruct (should_shutdown sigint (clock w)) eqn:Hflag.
  { rewrite main_loop_shutdown by done. by intros [= <-]. }
  rewrite main_loop_cons by done.
  destruct (iteration sigint a w) as [[tr [e|[]]] w']; [done|].
  specialize (IH w'). by destruct (main_loop sigint script w').
Qed.

Lemma window_after_failed_turn sigint a w :
  fails a = true →
  price_window (locals (iteration sigint a w).2) = price_window (locals w).
Proof.
  intros (e & Hfetch & Hcatch)%fails_inv.
  by rewrite (iteration_fails _ _ _ e).
Qed.

(** C3: with the backoff at its reset value, the waits after the first,
    second, third, ... consecutive failure last 1, 2, 4, 8, 16, 32, 60, 60,
    60, ... seconds (the doubling schedule, capped at 60); and whatever the
    backoff was, a success (a turn that runs lines 91-101 to their end) puts
    it back, so the failure that follows a success is waited out for 1
    second. *)
Theorem backoff_schedule script ok f w w' :
  Forall (λ a, fails a = true) script →
  succeeds None ok w' → fails f = true →
  backoff (locals w) = 1 →
  backoff_waits (main_loop None script w).1
    = (λ k, 1000 * nth_delay k) <$> seq 0 (length script)
  ∧ nth_delay <$> seq 0 9 = [1; 2; 4; 8; 16; 32; 60; 60; 60]
  ∧ (∀ k, (6 ≤ k)%nat → nth_delay k = 60)
  ∧ backoff_waits (main_loop None [ok; f] w').1 = [1000].
Proof.
  intros Hall Hok Hf Hreset. split; [|split; [|split]].
  - by apply waits_of_failures.
  - done.
  - apply nth_delay_capped.
  - destruct (main_loop_success None ok [f] w' eq_refl Hok)
      as (x & ts & sma & tr & t & _ & Hrun & Htr). cbn zeta in Hrun.
    rewrite Hrun.
    cbn [fst]. rewrite backoff_waits_sample_turn by done.
    by rewrite (waits_of_failures [f] _ O); [|constructor|].
Qed.

(** C6: counting from a reset state, the error of line 110 is logged by the
    fifth consecutive failure and by every one after it, and by none of the
    first four: [n] failures log it [n - 4] times.  The loop is still polling
    afterwards, with all [n] failures counted.  A success (a turn that runs
    lines 91-101 to their end) resets the count: the failures that follow
    it log the error from their own fifth on. *)
Theorem excessive_failure_escalation script ok more w :
  Forall (λ a, fails a = true) script →
  (∀ w1, (main_loop None script w).2 = Polling w1 → succeeds None ok w1) →
  Forall (λ a, fails a = true) more →
  consecutive_failures (locals w) = 0 →
  escalations (main_loop None script w).1 = (length script - 4)%nat
  ∧ (∃ w1, (main_loop None script w).2 = Polling w1
           ∧ consecutive_failures (locals w1) = Z.of_nat (length script))
  ∧ escalations (main_loop None (script ++ ok :: more) w).1
    = ((length script - 4) + (length more - 4))%nat
  ∧ (∀ sigint a w0, fails a = true →
       escalations (iteration sigint a w0).1.1
       = if bool_decide (5 ≤ consecutive_failures (locals w0) + 1)
         then 1%nat else 0%nat).
Proof.
  intros Hall Hok Hmore Hzero.
  destruct (run_of_failures script w Hall) as (tr & t & b & Hrun & Hesc).
  specialize (Hok _ (f_equal snd Hrun)).
  rewrite Hzero in Hrun, Hesc, Hok.
  assert (escalations tr = (length script - 4)%nat) as Htr by lia.
  split; [by rewrite Hrun|]. split; [rewrite Hrun; by eexists|].
  split; [|intros sigint a w0 (e & Hfetch & Hcatch)%fails_inv;
           rewrite (iteration_fails _ _ _ e) by done; by case_bool_decide].
  rewrite (main_loop_app _ _ _ _ _ _ Hrun). cbn [fst].
  set (w1 := World _ t).
  destruct (main_loop_success None ok more w1 eq_refl Hok)
    as (x & ts & sma & tr1 & t1 & _ & Hturn & Hquiet). cbn zeta in Hturn.
  rewrite Hturn.
  set (w2 := World _ t1).
  destruct (run_of_failures more w2 Hmore) as (tr2 & t2 & b2 & Hrun2 & Hesc2).
  rewrite Hrun2. cbn [fst]. simpl in Hesc2.
  rewrite escalations_app, escalations_sample_turn by done. lia.
Qed.

(** C7: a run whose interrupt has been delivered by the time the loop is
    entered calls [fetch_price] not even once and ends in [sys.exit(0)]; in
    any run, no call of [fetch_price] starts at or after the instant of the
    interrupt; and when the loop is left through the flag the exit status is
    0. *)
Theorem shutdown_stops_fetching (T : Z) script w start :
  (T ≤ start → main (Some T) script start = ([], Exit 0))
  ∧ (∀ t, t ∈ fetch_times (main_loop (Some T) script w).1 → t < T)
  ∧ (∀ status, (main_loop (Some T) script w).2 = Exit status → status = 0).
Proof.
  split; [|split].
  - intros Hle. apply main_loop_shutdown. simpl. by rewrite bool_decide_eq_true_2.
  - intros t Ht%fetch_times_unflagged. simpl in Ht.
    apply bool_decide_eq_false_1 in Ht. lia.
  - apply exit_status_zero.
Qed.

Lemma main_loop_uncaught sigint a script w e :
  should_shutdown sigint (clock w) = false →
  fetch_price (response a) = inl e → main_except e = false →
  main_loop sigint (a :: script) w = ([EvFetch (clock w)], Traceback e).
Proof.
  intros Hflag Hfetch Hcatch. rewrite main_loop_cons by done.
  by rewrite (iteration_uncaught _ _ _ e).
Qed.

Lemma main_loop_not_number sigint a script w p ts :
  should_shutdown sigint (clock w) = false →
  fetch_price (response a) = inr (p, ts) → (∀ x, p ≠ PNum x) →
  main_loop sigint (a :: script) w = ([EvFetch (clock w)], Traceback TypeError).
Proof.
  intros Hflag Hfetch Hp. rewrite main_loop_cons by done.
  by rewrite (iteration_not_number _ _ _ p ts).
Qed.

(** X2: a transient fetch error is absorbed: the turn logs the warning,
    counts the failure, waits out the backoff, leaves the window alone and
    returns to the head of the loop. *)
Theorem transient_failure_absorbed sigint a w :
  transient (response a) = true →
  fails a = true
  ∧ ∃ e tr w',
      iteration sigint a w = (EvFetch (clock w) :: EvWarning e :: tr, inr tt, w')
      ∧ backoff_waits tr = [1000 * backoff (locals w)]
      ∧ consecutive_failures (locals w') = consecutive_failures (locals w) + 1
      ∧ price_window (locals w') = price_window (locals w).
Proof.
  intros Htransient.
  assert (∃ e, fetch_price (response a) = inl e ∧ main_except e = true)
    as (e & Hfetch & Hcatch).
  { destruct (response a) as [[]|status body]; simpl in *.
    - by exists Timeout.
    - by exists ConnectionError.
    - unfold raise_for_status. case_bool_decide as Hstatus.
      + by exists (HTTPError status).
      + destruct body; [done|]. by exists JSONDecodeError. }
  split; [unfold PricePulse.fails; by rewrite Hfetch|].
  exists e. eexists _, _. rewrite (iteration_fails _ _ _ e) by done.
  split; [done|]. by case_bool_decide.
Qed.

(** *** The two waits and the interrupt *)

(** Entered after the interrupt, the wait between two polls returns at
    once. *)
Lemma poll_wait_flagged (T : Z) n w :
  T ≤ clock w → clock (poll_wait (Some T) n w).2 = clock w.
Proof.
  intros Hle. destruct n as [|n]; [done|].
  rewrite poll_wait_S. run_prog. by rewrite bool_decide_eq_true_2.
Qed.

(** X1: the wait between two polls reads the flag every 100 ms: entered
    before the interrupt, it is over less than 100 ms after it, and it never
    lasts longer than its [n] sleeps. *)
Theorem poll_wait_prompt (T : Z) n w :
  clock w ≤ T →
  clock (poll_wait (Some T) n w).2 < T + 100
  ∧ clock (poll_wait (Some T) n w).2 ≤ clock w + 100 * Z.of_nat n.
Proof.
  revert w. induction n as [|n IH]; intros w Hle.
  { unfold PricePulse.poll_wait. cbn. lia. }
  rewrite poll_wait_S. run_prog. case_bool_decide as Hflag.
  { cbn. lia. }
  run_prog. set (w1 := World (locals w) (clock w + 100)).
  destruct (decide (clock w1 ≤ T)) as [Hlater|Hsooner].
  - destruct (IH w1 Hlater) as [Hprompt Hbound].
    destruct (poll_wait (Some T) n w1) as [[tr r] w2]. simpl in *. lia.
  - pose proof (poll_wait_flagged T n w1) as Hnow.
    destruct (poll_wait (Some T) n w1) as [[tr r] w2]. simpl in *. lia.
Qed.

(** C5: in a run that is still polling, the window is the samples of the
    script recorded one by one into the empty deque, and it holds at most 10
    of them; whatever is recorded, the window never holds more than 10; a
    record into a full window drops the oldest sample and keeps the others in
    their order; after 11 records the window is the last 10 of them, the
    first one gone. *)
Theorem window_bounded_fifo :
  (∀ sigint script start tr w',
     main sigint script start = (tr, Polling w') →
     price_window (locals w') = record_all (omap sample script)
     ∧ (length (price_window (locals w')) ≤ 10)%nat)
  ∧ (∀ (A : Type) (vs : list A), (length (record_all vs) ≤ 10)%nat)
  ∧ (∀ (A : Type) (d : list A) (x : A), length d = 10%nat →
       deque_append MAXLEN d x = drop 1 d ++ [x]
       ∧ length (deque_append MAXLEN d x) = 10%nat)
  ∧ (∀ (A : Type) (v : A) (vs : list A), length vs = 10%nat →
       record_all (v :: vs) = vs ∧ length (record_all (v :: vs)) = 10%nat).
Proof.
  split; [|split; [|split]].
  - intros sigint script start tr w' Hrun.
    apply main_loop_window in Hrun. simpl in Hrun.
    fold (record_all (omap sample script)) in Hrun. rewrite Hrun. split; [done|]. apply record_all_bounded.
  - intros A. apply record_all_bounded.
  - intros A. apply deque_append_evicts.
  - intros A. apply record_all_eleven.
Qed.

(** C4: the average shown on the status line of the [k+1]-th recorded
    sample is the arithmetic mean of the last [min (k+1) 10] samples recorded
    so far, in their order of arrival, and the line shows that sample as
    price; a run that is still polling has printed such a line for every
    sample of its script. *)
Theorem rolling_average_of_last_samples sigint script start :
  (∀ k p s,
     statuses (main sigint script start).1 !! k = Some (p, s) →
     let recorded := take (S k) (omap sample script) in
     omap sample script !! k = Some p
     ∧ length recorded = S k
     ∧ arithmetic_mean (last_n (length recorded `min` 10) recorded) = Some s)
  ∧ (∀ tr w',
       main sigint script start = (tr, Polling w') →
       (statuses tr).*1 = omap sample script).
Proof.
  split; [|intros tr w'; apply statuses_complete].
  intros k p s Hline recorded.
  destruct (statuses_window sigint script (World initial start) [] k p s
              eq_refl Hline) as [Hp Hmean].
  split; [done|]. split.
  - unfold recorded. rewrite length_take. apply lookup_lt_Some in Hp. lia.
  - by rewrite last_n_min.
Qed.

(** C9: whatever the window held, after the append of line 92 it is not
    empty, so the conditional of line 93 takes the branch of the division
    and the divisor is not zero: line 93 gives the sum divided by the
    length, or the [OverflowError] of one of the two, and never a
    [ZeroDivisionError].  A turn whose fetch returns a number shows that
    quotient on its status line, or ends with the [OverflowError] of the
    arithmetic or of the formatting; it never ends with a
    [ZeroDivisionError]. *)
Theorem sma_never_divides_by_zero (d : list num) (price : num) :
  let d' := deque_append MAXLEN d price in
  deque_bool d' = true
  ∧ Z.of_nat (length d') ≠ 0
  ∧ mean d' = (total ← overflow (py_sum d');
               overflow (py_truediv total (Z.of_nat (length d'))))
  ∧ sma_expr d' price = mean d'
  ∧ mean d' ≠ inl ZeroDivisionError
  ∧ (∀ sigint a w ts,
       price_window (locals w) = d →
       fetch_price (response a) = inr (PNum price, ts) →
       (∃ sma tr w',
           arithmetic_mean d' = Some sma
           ∧ is_Some (format_2f price) ∧ is_Some (format_2f sma)
           ∧ iteration sigint a w =
               (EvFetch (clock w) :: EvStatus ts price sma :: tr, inr tt, w'))
       ∨ (∃ w',
           iteration sigint a w = ([EvFetch (clock w)], inl OverflowError, w')
           ∧ (arithmetic_mean d' = None ∨ format_2f price = None
              ∨ ∃ sma, arithmetic_mean d' = Some sma ∧ format_2f sma = None))).
Proof.
  intros d'. pose proof (deque_append_nonempty d price) as Hlen. fold d' in Hlen.
  assert (deque_bool d' = true) as Htruth
    by (unfold deque_bool; by rewrite bool_decide_eq_true_2).
  assert (mean d' = (total ← overflow (py_sum d');
                     overflow (py_truediv total (Z.of_nat (length d')))))
    as Hmean.
  { unfold PricePulse.mean. destruct (py_sum d') as [total|]; [|done]. cbn.
    by rewrite bool_decide_eq_false_2 by lia. }
  split; [done|]. split; [lia|]. split; [done|]. split; [|split].
  - unfold PricePulse.sma_expr. by rewrite Htruth.
  - rewrite Hmean. destruct (py_sum d') as [total|]; [|done]. cbn.
    by destruct (py_truediv total _).
  - intros sigint a w ts <- Hfetch.
    destruct (iteration_number sigint a w price ts Hfetch)
      as [(sma & tr & t & Hsma & Hp & Hs & Hit & _)|(w' & Hit & Hwhy)].
    + left. by eexists sma, tr, _.
    + right. by exists w'.
Qed.

(** *** Bounds, pacing and the end of a run *)

Lemma poll_sleeps_no_warning tr :
  Forall (λ ev, is_poll_sleep ev = true) tr → warnings tr = O.
Proof.
  induction 1 as [|ev tr Hev _ IH]; [done|].
  by destruct ev as [| | | |[] ? ?|].
Qed.

(** A turn that comes back to the head of the loop: it made one call and
    logged one status line or one warning, waited out a backoff within its
    bounds if any, kept the locals within their bounds, and either found the
    flag set or let one second pass. *)
Lemma turn_progress sigint a w tr w' :
  in_bounds (locals w) →
  iteration sigint a w = (tr, inr tt, w') →
  in_bounds (locals w')
  ∧ (should_shutdown sigint (clock w') = true ∧ clock w ≤ clock w'
     ∨ clock w + 1000 ≤ clock w')
  ∧ Forall (λ ms, 1000 ≤ ms ≤ 60000) (backoff_waits tr)
  ∧ (length (statuses tr) + warnings tr = 1)%nat.
Proof.
  intros [Hb Hc] Hit.
  destruct (iteration_cases sigint a w)
    as [(x & ts & sma & tr0 & t & _ & _ & _ & Hit' & Hquiet & Hend)
       |[(e & _ & _ & Hfetch & Hcatch)|(e & w0 & _ & _ & Hit')]].
  - rewrite Hit' in Hit.
    pose proof (f_equal (λ r, r.1.1) Hit) as Htr.
    pose proof (f_equal snd Hit) as Hw. cbn in Htr, Hw. subst tr w'.
    destruct (poll_sleeps_quiet tr0 Hquiet) as (Hst & Hbw & _).
    pose proof (poll_sleeps_no_warning tr0 Hquiet) as Hwarn.
    split; [split; simpl; lia|]. split; [done|].
    change (backoff_waits (EvFetch (clock w) :: EvStatus ts x sma :: tr0))
      with (backoff_waits tr0).
    change (statuses (EvFetch (clock w) :: EvStatus ts x sma :: tr0))
      with ((x, sma) :: statuses tr0).
    change (warnings (EvFetch (clock w) :: EvStatus ts x sma :: tr0))
      with (warnings tr0).
    rewrite Hbw, Hst, Hwarn. by split.
  - rewrite (iteration_fails _ _ _ e) in Hit by done.
    pose proof (f_equal (λ r, r.1.1) Hit) as Htr.
    pose proof (f_equal snd Hit) as Hw. cbn in Htr, Hw. subst tr w'.
    simpl. split; [split; simpl; lia|].
    split; [right; lia|].
    case_bool_decide; (split; [repeat constructor; lia|done]).
  - by rewrite Hit' in Hit.
Qed.

(** A turn that an exception leaves: the exception is one that line 102
    does not list, and the call is all that the turn has done. *)
Lemma turn_raises sigint a w tr e w' :
  iteration sigint a w = (tr, inl e, w') →
  tr = [EvFetch (clock w)] ∧ main_except e = false.
Proof.
  intros Hit.
  destruct (iteration_cases sigint a w)
    as [(x & ts & sma & tr0 & t & _ & _ & _ & Hit' & _)
       |[(e' & _ & _ & Hfetch & Hcatch)|(e' & w0 & _ & Hcatch & Hit')]].
  - by rewrite Hit' in Hit.
  - by rewrite (iteration_fails _ _ _ e') in Hit.
  - rewrite Hit' in Hit. by injection Hit as <- <- <-.
Qed.

Lemma fetch_times_from sigint script w t :
  in_bounds (locals w) →
  t ∈ fetch_times (main_loop sigint script w).1 → clock w ≤ t.
Proof.
  revert w. induction script as [|a script IH]; intros w Hw.
  { simpl. destruct (should_shutdown _ _); by intros ?%elem_of_nil. }
  destruct (should_shutdown sigint (clock w)) eqn:Hflag.
  { rewrite main_loop_shutdown by done. by intros ?%elem_of_nil. }
  rewrite main_loop_cons by done.
  pose proof (fetch_times_iteration sigint a w) as Hturn.
  destruct (iteration sigint a w) as [[tr [e|[]]] w'] eqn:Hit;
    cbn [fst snd] in *.
  - rewrite Hturn. intros ->%list_elem_of_singleton. lia.
  - destruct (turn_progress sigint a w tr w' Hw Hit) as (Hw' & Hclock & _).
    specialize (IH w' Hw'). destruct (main_loop sigint script w') as [tr' o].
    cbn [fst] in *. unfold fetch_times in *. rewrite omap_app, Hturn.
    intros [->%list_elem_of_singleton|Hin]%elem_of_app; [lia|].
    apply IH in Hin. destruct Hclock as [[_ ?]|?]; lia.
Qed.

Lemma main_loop_turn sigint a script w tr w' :
  should_shutdown sigint (clock w) = false →
  iteration sigint a w = (tr, inr tt, w') →
  main_loop sigint (a :: script) w
  = (tr ++ (main_loop sigint script w').1, (main_loop sigint script w').2).
Proof.
  intros Hflag Hit. rewrite main_loop_cons, Hit by done.
  by destruct (main_loop sigint script w').
Qed.

Lemma main_loop_raise sigint a script w tr e w' :
  should_shutdown sigint (clock w) = false →
  iteration sigint a w = (tr, inl e, w') →
  main_loop sigint (a :: script) w = ([EvFetch (clock w)], Traceback e)
  ∧ main_except e = false.
Proof.
  intros Hflag Hit. destruct (turn_raises _ _ _ _ _ _ Hit) as [-> Hcatch].
  by rewrite main_loop_cons, Hit.
Qed.

Lemma warnings_app tr tr' : warnings (tr ++ tr') = (warnings tr + warnings tr')%nat.
Proof. unfold warnings. by rewrite omap_app, length_app. Qed.

Lemma statuses_app tr tr' : statuses (tr ++ tr') = statuses tr ++ statuses tr'.
Proof. unfold statuses. by rewrite omap_app. Qed.

Lemma backoff_waits_app tr tr' :
  backoff_waits (tr ++ tr') = backoff_waits tr ++ backoff_waits tr'.
Proof. unfold backoff_waits. by rewrite omap_app. Qed.

Lemma fetch_times_app tr tr' :
  fetch_times (tr ++ tr') = fetch_times tr ++ fetch_times tr'.
Proof. unfold fetch_times. by rewrite omap_app. Qed.

Lemma bounds_kept sigint script w :
  in_bounds (locals w) →
  Forall (λ ms, 1000 ≤ ms ≤ 60000) (backoff_waits (main_loop sigint script w).1)
  ∧ (∀ w', (main_loop sigint script w).2 = Polling w' → in_bounds (locals w')).
Proof.
  revert w. induction script as [|a script IH]; intros w Hw.
  { simpl. destruct (should_shutdown _ _); [done|].
    split; [done|]. by intros w' [= <-]. }
  destruct (should_shutdown sigint (clock w)) eqn:Hflag.
  { by rewrite main_loop_shutdown. }
  destruct (iteration sigint a w) as [[tr [e|[]]] w'] eqn:Hit.
  - destruct (main_loop_raise sigint a script w _ _ _ Hflag Hit) as [-> _].
    done.
  - destruct (turn_progress sigint a w tr w' Hw Hit) as (Hw' & _ & Hwaits & _).
    rewrite (main_loop_turn _ _ _ _ _ _ Hflag Hit). cbn [fst snd].
    destruct (IH w' Hw') as [IHwaits IHend]. split; [|done].
    rewrite backoff_waits_app. by apply Forall_app.
Qed.

Lemma fetches_paced sigint script w i t t' :
  in_bounds (locals w) →
  fetch_times (main_loop sigint script w).1 !! i = Some t →
  fetch_times (main_loop sigint script w).1 !! S i = Some t' →
  t + 1000 ≤ t'.
Proof.
  revert w i. induction script as [|a script IH]; intros w i Hw.
  { simpl. by destruct (should_shutdown _ _). }
  destruct (should_shutdown sigint (clock w)) eqn:Hflag.
  { by rewrite main_loop_shutdown. }
  destruct (iteration sigint a w) as [[tr [e|[]]] w'] eqn:Hit.
  { destruct (main_loop_raise sigint a script w _ _ _ Hflag Hit) as [-> _].
    by destruct i. }
  destruct (turn_progress sigint a w tr w' Hw Hit) as (Hw' & Hclock & _).
  rewrite (main_loop_turn _ _ _ _ _ _ Hflag Hit). cbn [fst].
  pose proof (fetch_times_iteration sigint a w) as Hturn.
  rewrite Hit in Hturn. cbn [fst] in Hturn.
  rewrite fetch_times_app, Hturn. cbn [app].
  destruct i as [|i]; cbn [lookup list_lookup]; [|by apply IH].
  intros [= <-] Hnext. apply list_elem_of_lookup_2 in Hnext.
  pose proof (fetch_times_from _ _ _ _ Hw' Hnext) as Hfrom.
  pose proof (fetch_times_unflagged _ _ _ _ Hnext) as Hunset.
  destruct Hclock as [[Hset _]|?]; [|lia].
  by rewrite (should_shutdown_mono _ _ _ Hfrom Hset) in Hunset.
Qed.

(** A run whose script reaches past the interrupt is not left polling. *)
Lemma interrupt_ends_loop (T : Z) script w :
  in_bounds (locals w) →
  T ≤ clock w + 1000 * Z.of_nat (length script) →
  (main_loop (Some T) script w).2 = Exit 0
  ∨ ∃ e, (main_loop (Some T) script w).2 = Traceback e
         ∧ main_except e = false.
Proof.
  revert w. induction script as [|a script IH]; intros w Hw HT.
  { left. rewrite main_loop_shutdown; [done|]. simpl in *.
    apply bool_decide_eq_true_2. lia. }
  destruct (should_shutdown (Some T) (clock w)) eqn:Hflag.
  { left. by rewrite main_loop_shutdown. }
  destruct (iteration (Some T) a w) as [[tr [e|[]]] w'] eqn:Hit.
  { destruct (main_loop_raise (Some T) a script w _ _ _ Hflag Hit) as [-> ?].
    right. by exists e. }
  destruct (turn_progress (Some T) a w tr w' Hw Hit) as (Hw' & Hclock & _).
  rewrite (main_loop_turn _ _ _ _ _ _ Hflag Hit). cbn [snd].
  destruct Hclock as [[Hset _]|Hlater].
  - left. by rewrite main_loop_shutdown.
  - apply IH; [done|]. simpl length in HT. lia.
Qed.

Lemma fetches_accounted sigint script w :
  in_bounds (locals w) →
  length (fetch_times (main_loop sigint script w).1)
  = (length (statuses (main_loop sigint script w).1)
     + warnings (main_loop sigint script w).1
     + tracebacks (main_loop sigint script w).2)%nat.
Proof.
  revert w. induction script as [|a script IH]; intros w Hw.
  { simpl. by destruct (should_shutdown _ _). }
  destruct (should_shutdown sigint (clock w)) eqn:Hflag.
  { by rewrite main_loop_shutdown. }
  destruct (iteration sigint a w) as [[tr [e|[]]] w'] eqn:Hit.
  { destruct (main_loop_raise sigint a script w _ _ _ Hflag Hit) as [-> _].
    done. }
  destruct (turn_progress sigint a w tr w' Hw Hit) as (Hw' & _ & _ & Hone).
  rewrite (main_loop_turn _ _ _ _ _ _ Hflag Hit). cbn [fst snd].
  pose proof (fetch_times_iteration sigint a w) as Hturn.
  rewrite Hit in Hturn. cbn [fst] in Hturn.
  rewrite fetch_times_app, statuses_app, warnings_app, !length_app, Hturn.
  rewrite (IH w' Hw'). simpl. lia.
Qed.

Lemma traceback_last sigint script w e :
  (main_loop sigint script w).2 = Traceback e →
  main_except e = false
  ∧ ∃ tr0 t, (main_loop sigint script w).1 = tr0 ++ [EvFetch t].
Proof.
  revert w. induction script as [|a script IH]; intros w.
  { simpl. by destruct (should_shutdown _ _). }
  destruct (should_shutdown sigint (clock w)) eqn:Hflag.
  { by rewrite main_loop_shutdown. }
  destruct (iteration sigint a w) as [[tr [e'|[]]] w'] eqn:Hit.
  - destruct (main_loop_raise sigint a script w _ _ _ Hflag Hit) as [-> ?].
    intros [= <-]. split; [done|]. by exists [], (clock w).
  - rewrite (main_loop_turn _ _ _ _ _ _ Hflag Hit). cbn [fst snd].
    intros Ho. destruct (IH w' Ho) as (? & tr0 & t & ->).
    split; [done|]. exists (tr ++ tr0), t. by rewrite app_assoc.
Qed.

(** X3: [fetch_price] returns a price and a timestamp exactly for a response
    with no 4xx or 5xx status whose body is an object holding, under
    ["bitcoin"], an object with an entry ["usd"] (the price, whatever it is)
    and a number under ["last_updated_at"] that the date conversion
    accepts. *)
Theorem fetch_price_success r p ts :
  fetch_price r = inr (p, ts) ↔
  ∃ status d b t,
    r = Response status (Some (PDict d))
    ∧ ¬ (400 ≤ status < 600)
    ∧ d !! "bitcoin" = Some (PDict b)
    ∧ b !! "usd" = Some p
    ∧ b !! "last_updated_at" = Some (PNum t)
    ∧ utcfromtimestamp t = inr ts.
Proof.
  unfold PricePulse.fetch_price, raise_for_status, json, subscript,
    utcfromtimestamp_strftime, mbind, mret, exn_bind, exn_ret.
  split.
  - destruct r as [f|status [[| | | |d]|]]; try done;
      case_bool_decide as Hstatus; try done.
    destruct (d !! "bitcoin") as [[| | | |b]|] eqn:Hd; try done.
    destruct (b !! "usd") as [price|] eqn:Hp; [|done].
    destruct (b !! "last_updated_at") as [[|t| | |]|] eqn:Ht; try done.
    destruct (utcfromtimestamp t) as [|dt] eqn:Hdt; [done|].
    intros [= <- <-]. by exists status, d, b, t.
  - intros (status & d & b & t & -> & Hstatus & Hd & Hp & Ht & Hdt).
    rewrite bool_decide_eq_false_2 by done.
    by rewrite Hd, Hp, Ht, Hdt.
Qed.

(** X4: in every run of [main], whatever the mix of successes and failures
    and whenever the interrupt comes, each wait after a failure lasts
    between 1 and 60 seconds, and while the loop is polling the backoff is
    between 1 and 60 and the count of consecutive failures is not
    negative. *)
Theorem locals_stay_in_bounds sigint script start :
  Forall (λ ms, 1000 ≤ ms ≤ 60000)
    (backoff_waits (main sigint script start).1)
  ∧ (∀ w', (main sigint script start).2 = Polling w' → in_bounds (locals w')).
Proof. apply bounds_kept. by split. Qed.

(** X5: two consecutive calls of [fetch_price] in a run of [main] start at
    least one second apart. *)
Theorem fetches_one_second_apart sigint script start i t t' :
  fetch_times (main sigint script start).1 !! i = Some t →
  fetch_times (main sigint script start).1 !! S i = Some t' →
  t + 1000 ≤ t'.
Proof. apply fetches_paced. by split. Qed.

(** X6: a run of [main] whose script reaches past the interrupt, at one
    second per turn, is not left polling: it ends in [sys.exit(0)], unless
    an exception that line 102 does not list has ended it before. *)
Theorem interrupt_ends_run (T : Z) script start :
  T ≤ start + 1000 * Z.of_nat (length script) →
  (main (Some T) script start).2 = Exit 0
  ∨ ∃ e, (main (Some T) script start).2 = Traceback e
         ∧ main_except e = false.
Proof. intros HT. by apply interrupt_ends_loop. Qed.

(** X7: in a run of [main], every call of [fetch_price] is answered by one
    status line or by one warning, except the call whose exception ends the
    run. *)
Theorem one_line_per_fetch sigint script start :
  length (fetch_times (main sigint script start).1)
  = (length (statuses (main sigint script start).1)
     + warnings (main sigint script start).1
     + tracebacks (main sigint script start).2)%nat.
Proof. apply fetches_accounted. by split. Qed.

(** X8: when an exception ends a run of [main], it is one that line 102
    does not list, and the last thing the run did is the call that raised
    it: nothing is logged about it. *)
Theorem traceback_is_unlogged sigint script start e :
  (main sigint script start).2 = Traceback e →
  main_except e = false
  ∧ ∃ tr0 t, (main sigint script start).1 = tr0 ++ [EvFetch t].
Proof. apply traceback_last. Qed.

End PollerFacts.

(** ** Scenarios on rationals *)

(** C1 (the code departs from it): a 200 response whose body lacks a field
    that [fetch_price] reads, or is not an object, or quotes the price as
    text, raises [KeyError] or [TypeError]; line 102 catches neither, so the
    exception leaves [main] after that one call and nothing of the rest of
    the script is attempted, with no interrupt involved. *)
Theorem missing_field_ends_the_loop (rest : list attempt) (start : Z) :
  q_main None (empty_object :: rest) start
    = ([EvFetch start], Traceback (KeyError "bitcoin"))
  ∧ q_main None (no_timestamp :: rest) start
    = ([EvFetch start], Traceback (KeyError "last_updated_at"))
  ∧ q_main None (array_body :: rest) start
    = ([EvFetch start], Traceback TypeError)
  ∧ q_main None (price_as_text :: rest) start
    = ([EvFetch start], Traceback TypeError)
  ∧ main_except (KeyError "bitcoin") = false
  ∧ main_except TypeError = false.
Proof.
  unfold q_main, main.
  split; [|split; [|split; [|split; [|done]]]].
  - by apply main_loop_uncaught.
  - by apply main_loop_uncaught.
  - by apply main_loop_uncaught.
  - by eapply main_loop_not_number.
Qed.

(** C2 (the code departs from it): the wait of line 106 is one [time.sleep]
    of the whole backoff, so it ends when the backoff has elapsed whenever
    the interrupt comes.  Interrupted 1 ms into the wait that follows a first
    failure, the loop is left 999 ms later; interrupted 1 ms into the wait
    that follows a seventh failure, 59999 ms later. *)
Theorem backoff_sleep_outlasts_interrupt :
  (∀ (T : Z) lat d c b t,
     clock (q_iteration (Some T) (Attempt lat (NoResponse NetTimeout))
              (World (State d c b) t)).2
     = t + Z.of_N lat + 1000 * b)
  ∧ q_main (Some 10001) [timed_out] 0
    = ([EvFetch 0; EvWarning Timeout; EvRetryInfo 1;
        EvSleep BackoffSleep 10000 1000], Exit 0)
  ∧ drop 26 (q_main (Some 133001) (replicate 7 timed_out) 0).1
    = [EvFetch 123000; EvWarning Timeout; EvRetryInfo 60;
       EvSleep BackoffSleep 133000 60000; EvError5]
  ∧ (q_main (Some 133001) (replicate 7 timed_out) 0).2 = Exit 0.
Proof.
  split; [|split; [|split]]; [|vm_compute; reflexivity..].
  intros T lat d c b t. unfold q_iteration.
  by rewrite (iteration_fails _ _ _ _ _ _ _ Timeout).
Qed.

(** C8: a turn whose fetch fails leaves the window as it found it; the
    window at the end of a run holds the samples of the successful turns,
    recorded in order, and nothing else.  Successes 100, 200, 300, one
    failure, then success 400: the four status lines show the averages 100,
    150, 200 and 250, and the window holds exactly these four samples. *)
Theorem failed_attempt_leaves_window :
  (∀ (num stamp : Type) py_sum py_truediv format_2f
     (utcfromtimestamp : num → exn + stamp) sigint a w,
     fails utcfromtimestamp a = true →
     price_window
       (locals (iteration py_sum py_truediv format_2f utcfromtimestamp
                  sigint a w).2)
     = price_window (locals w))
  ∧ (∀ (num stamp : Type) py_sum py_truediv format_2f
       (utcfromtimestamp : num → exn + stamp) sigint script w tr w',
       main_loop py_sum py_truediv format_2f utcfromtimestamp sigint script w
       = (tr, Polling w') →
       price_window (locals w')
       = foldl (deque_append MAXLEN) (price_window (locals w))
           (omap (sample utcfromtimestamp) script))
  ∧ statuses
      (q_main None
         [quoted 100; quoted 200; quoted 300; timed_out; quoted 400] 0).1
    = [(100, 100); (200, 150); (300, 200); (400, 250)]%Q
  ∧ ∃ w',
      (q_main None
         [quoted 100; quoted 200; quoted 300; timed_out; quoted 400] 0).2
      = Polling w'
      ∧ price_window (locals w') = [100; 200; 300; 400]%Q
      ∧ length (price_window (locals w')) = 4%nat.
Proof.
  split; [|split; [|split]].
  - intros. by apply window_after_failed_turn.
  - intros. by eapply main_loop_window.
  - vm_compute. reflexivity.
  - eexists. vm_compute. done.
Qed.

(** ** Instances *)

Lemma backoff_schedule_witness :
  backoff_waits (q_main_loop None (replicate 9 timed_out) (World initial 0)).1
  = [1000; 2000; 4000; 8000; 16000; 32000; 60000; 60000; 60000]
  ∧ backoff_waits
      (q_main_loop None [quoted 100; timed_out] (World (State [] 7 60) 0)).1
    = [1000].
Proof.
  destruct (backoff_schedule q_sum q_truediv q_format_2f q_utcfromtimestamp
              (replicate 9 timed_out) (quoted 100) timed_out
              (World initial 0) (World (State [] 7 60) 0))
    as (Hwaits & _ & _ & Hreset).
  - repeat constructor.
  - split; vm_compute; reflexivity.
  - reflexivity.
  - reflexivity.
  - split; [exact Hwaits | exact Hreset].
Defined.

Lemma rolling_average_witness :
  statuses
    (q_main None
       (quoted <$> [1; 2; 3; 4; 5; 6; 7; 8; 9; 10; 11; 12]%Q) 0).1 !! 11%nat
  = Some (12, 15 # 2)%Q
  ∧ arithmetic_mean q_sum q_truediv [3; 4; 5; 6; 7; 8; 9; 10; 11; 12]%Q
    = Some (15 # 2)%Q.
Proof.
  assert (statuses
            (q_main None
               (quoted <$> [1; 2; 3; 4; 5; 6; 7; 8; 9; 10; 11; 12]%Q) 0).1
          !! 11%nat = Some (12, 15 # 2)%Q) as Hline
    by (vm_compute; reflexivity).
  split; [exact Hline|].
  destruct (proj1 (rolling_average_of_last_samples q_sum q_truediv
                     q_format_2f q_utcfromtimestamp None _ 0) 11%nat _ _ Hline)
    as (_ & _ & Hmean).
  exact Hmean.
Defined.

Lemma sma_never_divides_by_zero_witness :
  fetch_price q_utcfromtimestamp (response (quoted 400))
  = inr (PNum 400%Q, 1700000000%Q)
  ∧ ∃ tr w',
      q_iteration None (quoted 400) (World (State [100; 200; 300]%Q 0 1) 0)
      = (EvFetch 0 :: EvStatus 1700000000%Q 400%Q 250%Q :: tr, inr tt, w').
Proof.
  split; [vm_compute; reflexivity|].
  destruct (sma_never_divides_by_zero q_sum q_truediv q_format_2f
              q_utcfromtimestamp [100; 200; 300]%Q 400%Q)
    as (_ & _ & _ & _ & _ & Hturn).
  destruct (Hturn None (quoted 400) (World (State [100; 200; 300]%Q 0 1) 0)
              1700000000%Q)
    as [(sma & tr & w' & Hmean & _ & _ & Hit)|(w' & Hit & _)];
    [reflexivity|vm_compute; reflexivity| |].
  - vm_compute in Hmean. injection Hmean as <-. by exists tr, w'.
  - vm_compute in Hit. discriminate Hit.
Defined.

Lemma window_bounded_fifo_witness :
  length [1; 2; 3; 4; 5; 6; 7; 8; 9; 10] = 10%nat
  ∧ record_all [0; 1; 2; 3; 4; 5; 6; 7; 8; 9; 10]
    = [1; 2; 3; 4; 5; 6; 7; 8; 9; 10]
  ∧ deque_append MAXLEN [1; 2; 3; 4; 5; 6; 7; 8; 9; 10] 11
    = [2; 3; 4; 5; 6; 7; 8; 9; 10; 11].
Proof.
  destruct (window_bounded_fifo q_sum q_truediv q_format_2f q_utcfromtimestamp)
    as (_ & _ & Hfull & Heleven).
  split; [reflexivity|]. split.
  - apply (Heleven Z 0 [1; 2; 3; 4; 5; 6; 7; 8; 9; 10]). reflexivity.
  - apply (Hfull Z [1; 2; 3; 4; 5; 6; 7; 8; 9; 10] 11). reflexivity.
Defined.

Lemma excessive_failure_escalation_witness :
  escalations (q_main_loop None (replicate 7 timed_out) (World initial 0)).1
  = 3%nat
  ∧ escalations
      (q_main_loop None
         (replicate 7 timed_out ++ quoted 100 :: replicate 5 timed_out)
         (World initial 0)).1
    = 4%nat.
Proof.
  destruct (excessive_failure_escalation q_sum q_truediv q_format_2f q_utcfromtimestamp
              (replicate 7 timed_out) (quoted 100) (replicate 5 timed_out)
              (World initial 0))
    as (Hcount & _ & Hafter & _).
  - repeat constructor.
  - intros w1 Hw1. vm_compute in Hw1. injection Hw1 as <-.
    split; vm_compute; reflexivity.
  - repeat constructor.
  - reflexivity.
  - split; [exact Hcount | exact Hafter].
Defined.

Lemma shutdown_stops_fetching_witness :
  0 ≤ 0
  ∧ q_main (Some 0) [quoted 100; quoted 200] 0 = ([], Exit 0).
Proof.
  split; [lia|].
  apply (shutdown_stops_fetching q_sum q_truediv q_format_2f q_utcfromtimestamp
           0 [quoted 100; quoted 200] (World initial 0) 0).
  lia.
Defined.

Lemma transient_failure_absorbed_witness :
  q_fails (Attempt 120 (Response 503 None)) = true
  ∧ ∃ e tr w',
      q_iteration None (Attempt 120 (Response 503 None)) (World initial 0)
      = (EvFetch 0 :: EvWarning e :: tr, inr tt, w')
      ∧ backoff_waits tr = [1000]
      ∧ consecutive_failures (locals w') = 1
      ∧ price_window (locals w') = [].
Proof.
  apply (transient_failure_absorbed q_sum q_truediv q_format_2f q_utcfromtimestamp
           None (Attempt 120 (Response 503 None)) (World initial 0)).
  reflexivity.
Defined.

Lemma poll_wait_prompt_witness :
  1000 ≤ 1234
  ∧ clock (@poll_wait Q Q (Some 1234) 10 (World initial 1000)).2 < 1234 + 100.
Proof.
  split; [lia|].
  apply (@poll_wait_prompt Q Q 1234 10 (World initial 1000)). simpl. lia.
Defined.

Lemma failed_attempt_leaves_window_witness :
  q_fails timed_out = true
  ∧ price_window
      (locals (q_iteration None timed_out
                 (World (State [100; 200; 300]%Q 0 1) 0)).2)
    = [100; 200; 300]%Q.
Proof.
  split; [reflexivity|].
  apply (proj1 failed_attempt_leaves_window). reflexivity.
Defined.

Lemma fetches_one_second_apart_witness :
  fetch_times (q_main None [quoted 100; timed_out; quoted 200] 0).1 !! 1%nat
  = Some 1050
  ∧ fetch_times (q_main None [quoted 100; timed_out; quoted 200] 0).1 !! 2%nat
    = Some 12050
  ∧ 1050 + 1000 ≤ 12050.
Proof.
  split; [vm_compute; reflexivity|]. split; [vm_compute; reflexivity|].
  apply (fetches_one_second_apart q_sum q_truediv q_format_2f q_utcfromtimestamp
           None [quoted 100; timed_out; quoted 200] 0 1 1050 12050);
    vm_compute; reflexivity.
Defined.

Lemma interrupt_ends_run_witness :
  1500 ≤ 0 + 1000 * Z.of_nat (length [quoted 100; timed_out])
  ∧ (q_main (Some 1500) [quoted 100; timed_out] 0).2 = Exit 0.
Proof.
  assert (1500 ≤ 0 + 1000 * Z.of_nat (length [quoted 100; timed_out]))
    as Htime by (simpl; lia).
  split; [exact Htime|].
  destruct (interrupt_ends_run q_sum q_truediv q_format_2f q_utcfromtimestamp
              1500 [quoted 100; timed_out] 0 Htime) as [Hexit|(e & Hraise & _)].
  - exact Hexit.
  - vm_compute in Hraise. discriminate Hraise.
Defined.

Lemma traceback_is_unlogged_witness :
  (q_main None [quoted 100; empty_object; quoted 200] 0).2
  = Traceback (KeyError "bitcoin")
  ∧ main_except (KeyError "bitcoin") = false
  ∧ ∃ tr0 t,
      (q_main None [quoted 100; empty_object; quoted 200] 0).1
      = tr0 ++ [EvFetch t].
Proof.
  split; [vm_compute; reflexivity|].
  apply (traceback_is_unlogged q_sum q_truediv q_format_2f q_utcfromtimestamp
           None [quoted 100; empty_object; quoted 200] 0 (KeyError "bitcoin")).
  vm_compute. reflexivity.
Defined.

(** * Properties of the CSV writers *)

Section CsvFacts.

Implicit Types (fs : gmap string (list row)) (coins : list (gmap string string)).







Lemma skip_to_sep_subseteq (l : list ascii) : skip_to_sep l ⊆ l.
Proof.
  induction l as [|c l IH]; [done|]. cbn. destruct (is_sep c); [done|].
  intros x Hx. right. by apply IH.
Qed.

Lemma skip_seps_subseteq (l : list ascii) : skip_seps l ⊆ l.
Proof.
  induction l as [|c l IH]; [done|]. cbn. destruct (is_sep c); [|done].
  intros x Hx. right. by apply IH.
Qed.

Lemma has_nul_dirname (p : string) :
  has_nul p = false → has_nul (dirname p) = false.
Proof.
  unfold has_nul. intros Hp%bool_decide_eq_false_1.
  apply bool_decide_eq_false_2. intros Hin. apply Hp.
  unfold dirname in Hin. cbv zeta in Hin.
  rewrite list_ascii_of_string_of_list_ascii in Hin.
  apply list_elem_of_In, in_rev, list_elem_of_In in Hin.
  apply list_elem_of_In, in_rev, list_elem_of_In.
  apply (skip_to_sep_subseteq (rev (list_ascii_of_string p))).
  destruct (skip_seps (skip_to_sep (rev (list_ascii_of_string p))))
    as [|c l] eqn:Hstrip; [done|].
  apply (skip_seps_subseteq (skip_to_sep (rev (list_ascii_of_string p)))).
  by rewrite Hstrip.
Qed.


(** Why the statement below is about paths with a directory and records
    whose keys are column names: [os.makedirs] refuses the empty directory
    name of a bare file name before anything is opened, and [DictWriter]
    raises on a key it has no column for, after the header is written. *)
Example write_to_csv_bare_filename :
  CmcHtmlScraper.write_to_csv [{[ "Rank" := "1" ]}] "out.csv" ∅
  = ([], inl FileNotFoundError, ∅).
Proof. vm_compute. reflexivity. Qed.

Example write_to_csv_unknown_key :
  CmcHtmlScraper.write_to_csv [{[ "Volume" := "9" ]}] "data/out.csv" ∅
  = ([EvMakedirs "data"; EvOpen "data/out.csv"; EvClose "data/out.csv"],
     inl ValueError,
     {[ "data/out.csv" := [columns] ]}).
Proof. vm_compute. reflexivity. Qed.



End CsvFacts.


(** ** What [write_to_csv] does with the input it refuses *)

Section CsvEdges.

Implicit Types (fs : gmap string (list row)) (coins : list (gmap string string)).




Lemma list_ascii_of_string_app (a b : string) :
  list_ascii_of_string (a +:+ b) = list_ascii_of_string a ++ list_ascii_of_string b.
Proof. induction a as [|c a IH]; [done|]. simpl. by rewrite IH. Qed.

Lemma string_of_list_ascii_empty (l : list ascii) :
  string_of_list_ascii l = "" → l = [].
Proof. by destruct l. Qed.

Lemma skip_to_sep_no_sep (l : list ascii) :
  "/"%char ∉ l → skip_to_sep l = [].
Proof.
  induction l as [|c l IH]; [done|]. intros Hnot. simpl. unfold is_sep.
  rewrite bool_decide_eq_false_2 by set_solver. apply IH. set_solver.
Qed.

Lemma dirname_no_sep (p : string) :
  "/"%char ∉ list_ascii_of_string p → dirname p = "".
Proof.
  intros Hnot. unfold dirname. cbv zeta.
  rewrite skip_to_sep_no_sep; [done|].
  by rewrite list_elem_of_In, <- in_rev, <- list_elem_of_In.
Qed.

Lemma basename_trailing_sep (d : string) : basename (d +:+ "/") = "".
Proof.
  unfold basename. by rewrite list_ascii_of_string_app, rev_app_distr.
Qed.

Lemma dirname_trailing_sep (d : string) : dirname (d +:+ "/") ≠ "".
Proof.
  unfold dirname. cbv zeta. rewrite list_ascii_of_string_app, rev_app_distr.
  change (rev (list_ascii_of_string "/")) with ["/"%char]. cbn [app skip_to_sep].
  change (is_sep "/") with true. cbv iota. cbn [skip_seps].
  change (is_sep "/") with true. cbv iota.
  destruct (skip_seps (rev (list_ascii_of_string d))) as [|c l];
    intros Hempty%string_of_list_ascii_empty;
    apply (f_equal length) in Hempty; rewrite length_rev in Hempty; done.
Qed.


(** X10: for a non-empty list, a file name with no directory in front makes
    [write_to_csv] raise [FileNotFoundError] at [os.makedirs], before any
    file is opened; a path that ends in a separator, in [.] or in [..]
    makes it raise [IsADirectoryError] at [open], after the directories are
    made; a NUL in the path makes it raise [ValueError] at the first call
    that is handed it.  In each case the files are as they were. *)
Theorem write_to_csv_refused_paths coins filename fs :
  coins ≠ [] →
  ("/"%char ∉ list_ascii_of_string filename →
   CmcHtmlScraper.write_to_csv coins filename fs
   = ([], inl FileNotFoundError, fs))
  ∧ (basename filename ∈ [""; "."; ".."] → dirname filename ≠ "" →
     has_nul filename = false →
     CmcHtmlScraper.write_to_csv coins filename fs
     = ([EvMakedirs (dirname filename)], inl IsADirectoryError, fs))
  ∧ (has_nul filename = true → dirname filename ≠ "" →
     CmcHtmlScraper.write_to_csv coins filename fs
     = (if has_nul (dirname filename) then []
        else [EvMakedirs (dirname filename)],
        inl ValueError, fs))
  ∧ (∀ d, basename (d +:+ "/") = "" ∧ dirname (d +:+ "/") ≠ "")
  ∧ CmcJsonScraper.write_to_csv coins filename fs
    = CmcHtmlScraper.write_to_csv coins filename fs.
Proof.
  intros Hcoins.
  split; [|split; [|split; [|split; [|done]]]].
  - intros Hbare%dirname_no_sep.
    unfold CmcHtmlScraper.write_to_csv. destruct coins; [done|].
    unfold mbind, stmt_bind, makedirs, lift. rewrite Hbare. done.
  - intros Hbase Hdir Hnul.
    unfold CmcHtmlScraper.write_to_csv. destruct coins; [done|].
    unfold mbind, stmt_bind, makedirs, with_open, open_w, emit.
    rewrite (bool_decide_eq_false_2 (dirname filename = "")) by done.
    rewrite (has_nul_dirname filename Hnul), Hnul.
    by rewrite bool_decide_eq_true_2 by done.
  - intros Hnul Hdir.
    unfold CmcHtmlScraper.write_to_csv. destruct coins; [done|].
    unfold mbind, stmt_bind, makedirs, with_open, open_w, emit, lift.
    rewrite (bool_decide_eq_false_2 (dirname filename = "")) by done.
    destruct (has_nul (dirname filename)); [done|]. by rewrite Hnul.
  - intros d. split; [apply basename_trailing_sep|apply dirname_trailing_sep].
Qed.

End CsvEdges.


Lemma write_to_csv_refused_paths_witness :
  CmcHtmlScraper.write_to_csv
    [CmcHtmlScraper.coin_row "1" "Bitcoin" "BTC" "43210.5" "1.2" "850000000000"]
    "top100.csv" ∅
  = ([], inl FileNotFoundError, ∅)
  ∧ CmcHtmlScraper.write_to_csv
      [CmcHtmlScraper.coin_row "1" "Bitcoin" "BTC" "43210.5" "1.2" "850000000000"]
      "data/" ∅
    = ([EvMakedirs "data"], inl IsADirectoryError, ∅).
Proof.
  split.
  - destruct (write_to_csv_refused_paths
      [CmcHtmlScraper.coin_row "1" "Bitcoin" "BTC" "43210.5" "1.2" "850000000000"]
      "top100.csv" ∅) as (Hbare & _); [discriminate|].
    apply Hbare. by apply (bool_decide_unpack _).
  - destruct (write_to_csv_refused_paths
      [CmcHtmlScraper.coin_row "1" "Bitcoin" "BTC" "43210.5" "1.2" "850000000000"]
      "data/" ∅) as (_ & Hslash & _); [discriminate|].
    apply Hslash; [by apply (bool_decide_unpack _)|discriminate|reflexivity].
Defined.

(** * Properties of the HTML scraper *)

Section HtmlFacts.

Import CmcHtmlScraper.

Variable split : string → list string.
Variable isdigit : string → bool.
Variable web : string → page.

Local Abbreviation parse_coin_row := (parse_coin_row split isdigit).
Local Abbreviation parse_rows := (parse_rows split isdigit).
Local Abbreviation scrape_page := (scrape_page split isdigit web).
Local Abbreviation scrape_pages := (scrape_pages split isdigit web).
Local Abbreviation scrape_cmc_top_100 := (scrape_cmc_top_100 split isdigit web).
Local Abbreviation main := (main split isdigit web).
Local Abbreviation page_fails := (page_fails web).
Local Abbreviation page_coins := (page_coins split isdigit web).
Local Abbreviation page_has_table := (page_has_table web).

(** ** Cleaning a cell *)

Lemma remove_char_bytes c s :
  list_ascii_of_string (remove_char c s)
  = filter (λ x, x ≠ c) (list_ascii_of_string s).
Proof. unfold remove_char. by rewrite list_ascii_of_string_of_list_ascii. Qed.

Lemma remove_char_gone c s : c ∉ list_ascii_of_string (remove_char c s).
Proof. rewrite remove_char_bytes. by intros [? _]%list_elem_of_filter. Qed.

Lemma remove_char_keeps_gone c c' s :
  c ∉ list_ascii_of_string s → c ∉ list_ascii_of_string (remove_char c' s).
Proof. rewrite remove_char_bytes. by intros Hs [_ ?]%list_elem_of_filter. Qed.

(** ** One row *)

(** What a row that is kept went through. *)
Lemma parse_coin_row_inv tds :
  parse_coin_row tds ≠ ∅ →
  ∃ td1 td2 td3 td4 td7 name symbol,
    tds !! 1%nat = Some td1 ∧ tds !! 2%nat = Some td2
    ∧ tds !! 3%nat = Some td3 ∧ tds !! 4%nat = Some td4
    ∧ tds !! 7%nat = Some td7
    ∧ (8 ≤ length tds)%nat
    ∧ name ≠ "" ∧ symbol ≠ ""
    ∧ isdigit (remove_first "."
                 (remove_char "," (remove_char "$" (get_text td3)))) = true
    ∧ parse_coin_row tds
      = coin_row (get_text td1) name symbol
          (remove_char "," (remove_char "$" (get_text td3)))
          (remove_char "%" (get_text td4))
          (remove_char "," (remove_char "$" (get_text td7))).
Proof.
  unfold CmcHtmlScraper.parse_coin_row.
  case_bool_decide as Hlen; [done|].
  destruct (tds !! 1%nat) as [td1|]; [|done].
  destruct (tds !! 2%nat) as [td2|]; [|done].
  destruct (tds !! 3%nat) as [td3|]; [|done].
  destruct (tds !! 4%nat) as [td4|]; [|done].
  destruct (tds !! 7%nat) as [td7|]; [|done].
  cbv zeta.
  match goal with |- context [let '(name, symbol) := ?pair in _] =>
    destruct pair as [name symbol] end.
  destruct (bool_decide (name = "")) eqn:Hname; [done|].
  destruct (bool_decide (symbol = "")) eqn:Hsymbol; [done|].
  destruct (isdigit _) eqn:Hprice; [|done].
  intros _. exists td1, td2, td3, td4, td7, name, symbol.
  apply bool_decide_eq_false_1 in Hname, Hsymbol.
  repeat split; try done. lia.
Qed.

Lemma coin_row_dom rank name symbol price change_24h market_cap :
  dom (coin_row rank name symbol price change_24h market_cap)
  = list_to_set columns.
Proof.
  unfold coin_row, columns. rewrite !dom_insert_L, dom_singleton_L. set_solver.
Qed.

Lemma coin_row_nonempty rank name symbol price change_24h market_cap :
  coin_row rank name symbol price change_24h market_cap ≠ ∅.
Proof. unfold coin_row. apply insert_non_empty. Qed.

Lemma page_coins_records row :
  parse_coin_row row ≠ ∅ → coin_record (parse_coin_row row).
Proof.
  intros (td1 & td2 & td3 & td4 & td7 & name & symbol & _ & _ & _ & _ & _
          & _ & _ & _ & _ & ->)%parse_coin_row_inv.
  unfold coin_record. by rewrite coin_row_dom.
Qed.

(** X11: [parse_coin_row] gives the empty dict for a row of fewer than 8
    cells; a dict it gives that is not empty has exactly the six columns as
    keys, the text of the second cell as rank, a name and a symbol that are
    not empty, and a price that passes [isdigit] once its first dot is taken
    out. *)
Theorem parse_coin_row_shape tds :
  ((length tds < 8)%nat → parse_coin_row tds = ∅)
  ∧ (parse_coin_row tds ≠ ∅ →
     dom (parse_coin_row tds) = list_to_set columns
     ∧ coin_record (parse_coin_row tds)
     ∧ (∃ td1, tds !! 1%nat = Some td1
               ∧ parse_coin_row tds !! "Rank" = Some (get_text td1))
     ∧ (∃ name, parse_coin_row tds !! "Name" = Some name ∧ name ≠ "")
     ∧ (∃ symbol, parse_coin_row tds !! "Symbol" = Some symbol ∧ symbol ≠ "")
     ∧ (∃ price, parse_coin_row tds !! "Price (USD)" = Some price
                 ∧ isdigit (remove_first "." price) = true)).
Proof.
  split.
  - intros Hlen. unfold CmcHtmlScraper.parse_coin_row.
    by rewrite bool_decide_eq_true_2.
  - intros Hkept. pose proof (page_coins_records tds Hkept) as Hrecord.
    destruct (parse_coin_row_inv tds Hkept)
      as (td1 & td2 & td3 & td4 & td7 & name & symbol & H1 & _ & _ & _ & _
          & _ & Hname & Hsymbol & Hprice & Heq).
    rewrite Heq in *. split; [apply coin_row_dom|]. split; [done|].
    split; [by exists td1|]. split; [by exists name|].
    split; [by exists symbol|]. by eexists.
Qed.

(** X12: in a dict that [parse_coin_row] gives, the price and the market
    cap hold no dollar sign and no comma, and the 24 h change no percent
    sign. *)
Theorem parse_coin_row_clean tds v :
  ((parse_coin_row tds !! "Price (USD)" = Some v
    ∨ parse_coin_row tds !! "Market Cap (USD)" = Some v) →
   ("$"%char ∉ list_ascii_of_string v) ∧ (","%char ∉ list_ascii_of_string v))
  ∧ (parse_coin_row tds !! "24h % Change" = Some v →
     "%"%char ∉ list_ascii_of_string v).
Proof.
  assert (∀ key, parse_coin_row tds !! key = Some v → parse_coin_row tds ≠ ∅)
    as Hkept by (intros key Hkey Hempty; by rewrite Hempty in Hkey).
  split.
  - intros Hv.
    assert (parse_coin_row tds ≠ ∅) as Hne by (destruct Hv; by eapply Hkept).
    destruct (parse_coin_row_inv tds Hne)
      as (td1 & td2 & td3 & td4 & td7 & name & symbol & _ & _ & _ & _ & _
          & _ & _ & _ & _ & Heq).
    rewrite Heq in Hv.
    assert (v = remove_char "," (remove_char "$" (get_text td3))
            ∨ v = remove_char "," (remove_char "$" (get_text td7))) as Hclean
      by (destruct Hv as [Hv|Hv]; [left|right]; by injection Hv).
    destruct Hclean as [-> | ->];
      (split; [apply remove_char_keeps_gone|]; apply remove_char_gone).
  - intros Hv. pose proof (Hkept _ Hv) as Hne.
    destruct (parse_coin_row_inv tds Hne)
      as (td1 & td2 & td3 & td4 & td7 & name & symbol & _ & _ & _ & _ & _
          & _ & _ & _ & _ & Heq).
    rewrite Heq in Hv. injection Hv as <-. apply remove_char_gone.
Qed.

(** ** The pages *)

Lemma parse_rows_kept rows all_coins :
  let kept := filter (λ data, data ≠ ∅) (parse_coin_row <$> rows) in
  parse_rows rows all_coins = ([], inr (length kept), all_coins ++ kept).
Proof.
  revert all_coins. induction rows as [|row rows IH]; intros all_coins.
  { cbn. by rewrite app_nil_r. }
  cbn [CmcHtmlScraper.parse_rows fmap list_fmap]. cbv zeta.
  rewrite filter_cons. case_bool_decide as Hkept.
  - rewrite decide_True by done.
    unfold mbind, stmt_bind, append. rewrite IH. cbn.
    by rewrite <- app_assoc.
  - rewrite decide_False by (by intros []). apply IH.
Qed.

Lemma scrape_page_ok page all_coins :
  page_fails page = false →
  ∃ evs,
    scrape_page page all_coins = (evs, inr tt, all_coins ++ page_coins page)
    ∧ requests evs = [page_url page]
    ∧ pauses evs = (if page_has_table page then 1 else 0)%nat.
Proof.
  unfold CmcHtmlScraper.page_fails, CmcHtmlScraper.page_coins,
    CmcHtmlScraper.page_has_table, CmcHtmlScraper.scrape_page.
  cbv zeta. destruct (web (page_url page)) as [f|status [rows|]]; [done|..];
    intros Hstatus; unfold PricePulse.raise_for_status; rewrite Hstatus;
    unfold mbind, stmt_bind, emit, lift.
  - rewrite (parse_rows_kept rows all_coins). cbn. eexists. done.
  - cbn. eexists. by rewrite app_nil_r.
Qed.

Lemma scrape_page_refused page all_coins :
  page_fails page = true →
  ∃ e,
    scrape_page page all_coins
    = ([EvInfoFetching (page_url page); EvGet (page_url page)], inl e, all_coins)
    ∧ is_RequestException e = true.
Proof.
  unfold CmcHtmlScraper.page_fails, CmcHtmlScraper.scrape_page.
  cbv zeta. destruct (web (page_url page)) as [f|status tbody].
  - intros _. exists (PricePulse.exn_of_net f). split; [done|]. by destruct f.
  - intros Hstatus. exists (HTTPError status).
    unfold PricePulse.raise_for_status. rewrite Hstatus. done.
Qed.

Lemma requests_app evs evs' : requests (evs ++ evs') = requests evs ++ requests evs'.
Proof. unfold requests. by rewrite omap_app. Qed.

Lemma pauses_app evs evs' : pauses (evs ++ evs') = (pauses evs + pauses evs')%nat.
Proof. unfold pauses. by rewrite omap_app, length_app. Qed.

Lemma scrape_pages_ok pages all_coins :
  Forall (λ page, page_fails page = false) pages →
  ∃ evs,
    scrape_pages pages all_coins
    = (evs, inr tt, all_coins ++ concat (page_coins <$> pages))
    ∧ requests evs = page_url <$> pages
    ∧ pauses evs = length (filter (λ page, page_has_table page = true) pages).
Proof.
  intros Hall. revert all_coins.
  induction Hall as [|page pages Hpage _ IH]; intros all_coins.
  { exists []. cbn. by rewrite app_nil_r. }
  destruct (scrape_page_ok page all_coins Hpage) as (evs & Hrun & Hreq & Hpause).
  destruct (IH (all_coins ++ page_coins page)) as (evs' & Hrest & Hreq' & Hpause').
  exists (evs ++ evs'). cbn [CmcHtmlScraper.scrape_pages].
  unfold mbind, stmt_bind. rewrite Hrun, Hrest.
  rewrite requests_app, pauses_app, Hreq, Hreq', Hpause, Hpause'.
  rewrite filter_cons. cbn. rewrite <- app_assoc. split; [done|]. split; [done|].
  destruct (page_has_table page); [by rewrite decide_True|by rewrite decide_False].
Qed.

Lemma scrape_pages_refused good bad rest all_coins :
  Forall (λ page, page_fails page = false) good → page_fails bad = true →
  ∃ evs e all_coins',
    scrape_pages (good ++ bad :: rest) all_coins = (evs, inl e, all_coins')
    ∧ requests evs = page_url <$> (good ++ [bad])
    ∧ is_RequestException e = true.
Proof.
  intros Hgood Hbad. revert all_coins.
  induction Hgood as [|page good Hpage _ IH]; intros all_coins.
  - destruct (scrape_page_refused bad all_coins Hbad) as (e & Hrun & He).
    exists [EvInfoFetching (page_url bad); EvGet (page_url bad)], e, all_coins.
    cbn [app CmcHtmlScraper.scrape_pages]. unfold mbind, stmt_bind.
    by rewrite Hrun.
  - destruct (scrape_page_ok page all_coins Hpage) as (evs & Hrun & Hreq & _).
    destruct (IH (all_coins ++ page_coins page)) as (evs' & e & s' & Hrest & Hreq' & He).
    exists (evs ++ evs'), e, s'. cbn [app CmcHtmlScraper.scrape_pages].
    unfold mbind, stmt_bind. rewrite Hrun, Hrest.
    by rewrite requests_app, Hreq, Hreq'.
Qed.

Lemma first_refused (pages : list Z) :
  Exists (λ page, page_fails page = true) pages →
  ∃ good bad rest,
    pages = good ++ bad :: rest
    ∧ Forall (λ page, page_fails page = false) good
    ∧ page_fails bad = true.
Proof.
  induction pages as [|page pages IH]; [by intros ?%Exists_nil|].
  intros Hex. destruct (page_fails page) eqn:Hpage.
  - by exists [], page, pages.
  - apply Exists_cons in Hex as [Hex|Hex]; [congruence|].
    destruct (IH Hex) as (good & bad & rest & -> & Hgood & Hbad).
    exists (page :: good), bad, rest. split; [done|]. split; [|done].
    by constructor.
Qed.

Lemma page_coins_all_records page :
  Forall (λ data, coin_record data ∧ data ≠ ∅) (page_coins page).
Proof.
  unfold CmcHtmlScraper.page_coins.
  destruct (web (page_url page)) as [|status [rows|]]; try done.
  apply Forall_forall. intros data [Hne Hin]%list_elem_of_filter.
  apply list_elem_of_fmap in Hin as (row & -> & _).
  split; [by apply page_coins_records|done].
Qed.

(** X13: when none of the five requests is refused, [scrape_cmc_top_100]
    asks for the five pages in order and returns the coins of their rows,
    page after page and row after row; every dict in the list is a coin
    record and none is empty; it pauses one second after each page that has
    a [tbody], and not after one that has none. *)
Theorem scrape_returns_the_coins_of_the_pages :
  Forall (λ page, page_fails page = false) (seqZ 1 5) →
  ∃ evs,
    scrape_cmc_top_100 = (evs, inr (concat (page_coins <$> seqZ 1 5)))
    ∧ requests evs = page_url <$> seqZ 1 5
    ∧ pauses evs = length (filter (λ page, page_has_table page = true) (seqZ 1 5))
    ∧ Forall (λ data, coin_record data ∧ data ≠ ∅)
        (concat (page_coins <$> seqZ 1 5)).
Proof.
  intros Hall. unfold CmcHtmlScraper.scrape_cmc_top_100.
  destruct (scrape_pages_ok (seqZ 1 5) [] Hall) as (evs & Hrun & Hreq & Hpause).
  rewrite Hrun. eexists. split; [done|].
  rewrite requests_app, pauses_app, Hreq, Hpause. cbn [requests pauses omap].
  split; [by rewrite app_nil_r|]. split; [cbn; lia|].
  apply Forall_concat, Forall_fmap, Forall_forall.
  intros page _. apply page_coins_all_records.
Qed.

(** X14: when one of the five requests is refused, whichever it is,
    [scrape_cmc_top_100] raises the exception of [requests], and [main]
    ends with it: the coins of the pages already read are dropped, no
    request follows the refused one, and the files are as they were. *)
Theorem refused_page_writes_nothing page fs :
  page ∈ seqZ 1 5 → page_fails page = true →
  ∃ evs e,
    main fs = (inl <$> evs, inl e, fs)
    ∧ is_RequestException e = true
    ∧ requests evs `prefix_of` (page_url <$> seqZ 1 5)
    ∧ ∃ refused, page_fails refused = true
                 ∧ last (requests evs) = Some (page_url refused).
Proof.
  intros Hin Hpage.
  assert (Exists (λ page, page_fails page = true) (seqZ 1 5)) as Hex
    by (apply Exists_exists; eauto).
  destruct (first_refused _ Hex) as (good & bad & rest & Hpages & Hgood & Hbad).
  destruct (scrape_pages_refused good bad rest [] Hgood Hbad)
    as (evs & e & s' & Hrun & Hreq & He).
  exists evs, e. unfold CmcHtmlScraper.main, CmcHtmlScraper.scrape_cmc_top_100.
  rewrite Hpages, Hrun. split; [done|]. split; [done|]. split.
  - rewrite Hreq, !fmap_app. exists (page_url <$> rest).
    by rewrite <- app_assoc.
  - exists bad. split; [done|]. rewrite Hreq, fmap_app.
    change (page_url <$> [bad]) with [page_url bad]. by rewrite last_snoc.
Qed.



End HtmlFacts.

Lemma scrape_returns_the_coins_of_the_pages_witness :
  ∃ evs,
    CmcHtmlScraper.scrape_cmc_top_100 CmcHtmlScraper.ascii_split
      CmcHtmlScraper.ascii_isdigit CmcHtmlScraper.example_web
    = (evs,
       inr [CmcHtmlScraper.coin_row "1" "Bitcoin" "BTC" "43210.50" "1.25"
              "850000000000";
            CmcHtmlScraper.coin_row "2" "Ethereum" "ETH" "2300.1" "-0.4"
              "270000000"])
    ∧ CmcHtmlScraper.pauses evs = 4%nat.
Proof.
  destruct (scrape_returns_the_coins_of_the_pages CmcHtmlScraper.ascii_split
              CmcHtmlScraper.ascii_isdigit CmcHtmlScraper.example_web)
    as (evs & Hrun & _ & Hpauses & _).
  { by apply (bool_decide_unpack _). }
  exists evs. split; [rewrite Hrun|rewrite Hpauses]; vm_compute; reflexivity.
Defined.

Lemma refused_page_writes_nothing_witness :
  ∃ evs e,
    CmcHtmlScraper.main CmcHtmlScraper.ascii_split CmcHtmlScraper.ascii_isdigit
      CmcHtmlScraper.example_web_down {[ CmcHtmlScraper.OUTPUT_CSV := [["stale"]] ]}
    = (inl <$> evs, inl e, {[ CmcHtmlScraper.OUTPUT_CSV := [["stale"]] ]})
    ∧ is_RequestException e = true.
Proof.
  destruct (refused_page_writes_nothing CmcHtmlScraper.ascii_split
              CmcHtmlScraper.ascii_isdigit CmcHtmlScraper.example_web_down
              4 {[ CmcHtmlScraper.OUTPUT_CSV := [["stale"]] ]})
    as (evs & e & Hrun & He & _).
  - by apply (bool_decide_unpack _).
  - vm_compute. reflexivity.
  - by exists evs, e.
Defined.


(** * Properties of the JSON scraper *)

Section JsonFacts.

Import CmcJsonScraper.

Context {num : Type}.
Variable format_f : nat → num → exn + string.
Variable upper : string → string.
Variable str : @PricePulse.pyval num → string.
Variable chars : string → list string.

Local Abbreviation pyval := (@PricePulse.pyval num).
Local Abbreviation csv_text := (CmcJsonScraper.csv_text str).
Local Abbreviation coin_dict := (CmcJsonScraper.coin_dict format_f upper str).
Local Abbreviation read_coins := (CmcJsonScraper.read_coins format_f upper str).
Local Abbreviation elements := (CmcJsonScraper.elements chars).
Local Abbreviation fetch_top_100_coingecko :=
  (CmcJsonScraper.fetch_top_100_coingecko format_f upper str chars).
Local Abbreviation main := (CmcJsonScraper.main format_f upper str chars).

Implicit Types (coin data : pyval) (idx : Z) (record : gmap string string).

(** ** One coin *)

Lemma item_inv coin key v :
  item coin key = inr v ↔ ∃ d, coin = PDict d ∧ d !! key = Some v.
Proof.
  unfold item, subscript. split.
  - destruct coin as [| | | |d]; try done.
    destruct (d !! key) as [v'|] eqn:Hkey; [|done].
    intros [= ->]. by exists d.
  - intros (d & -> & ->). done.
Qed.

Lemma format_fixed_inv digits (v : pyval) text :
  format_fixed format_f digits v = inr text
  ↔ ∃ x, v = PNum x ∧ format_f digits x = inr text.
Proof.
  unfold format_fixed. split.
  - destruct v as [|x| | |]; try done.
    destruct (format_f digits x) as [|text'] eqn:Hx; [done|].
    intros [= ->]. by exists x.
  - intros (x & -> & ->). done.
Qed.

Lemma call_upper_inv (v : pyval) text :
  call_upper upper v = inr text ↔ ∃ s, v = PStr s ∧ text = upper s.
Proof.
  unfold call_upper. split.
  - destruct v as [| |s| |]; try done. intros [= <-]. by exists s.
  - intros (s & -> & ->). done.
Qed.

Lemma coin_dict_inv idx coin record :
  coin_dict idx coin = inr record
  ↔ ∃ d name symbol price change cap price_text change_text cap_text,
      coin = PDict d
      ∧ d !! "current_price" = Some (PNum price)
      ∧ d !! "price_change_percentage_24h" = Some (PNum change)
      ∧ d !! "market_cap" = Some (PNum cap)
      ∧ d !! "name" = Some name
      ∧ d !! "symbol" = Some (PStr symbol)
      ∧ format_f 8 price = inr price_text
      ∧ format_f 2 change = inr change_text
      ∧ format_f 2 cap = inr cap_text
      ∧ record = coin_row (pretty idx) (csv_text name) (upper symbol)
                   (rstrip "." (rstrip "0" price_text))
                   change_text
                   (rstrip "." (rstrip "0" cap_text)).
Proof.
  unfold CmcJsonScraper.coin_dict, mbind, coin_error_bind, mret, coin_error_ret.
  split.
  - destruct (item coin "current_price") as [|p] eqn:Hp; [done|].
    destruct (item coin "price_change_percentage_24h") as [|c] eqn:Hc; [done|].
    destruct (item coin "market_cap") as [|m] eqn:Hm; [done|].
    destruct (item coin "name") as [|name] eqn:Hname; [done|].
    destruct (item coin "symbol") as [|s] eqn:Hs; [done|].
    destruct (call_upper upper s) as [|symbol] eqn:Hupper; [done|].
    destruct (format_fixed format_f 8 p) as [|price_text] eqn:Hprice; [done|].
    destruct (format_fixed format_f 2 c) as [|change_text] eqn:Hchange; [done|].
    destruct (format_fixed format_f 2 m) as [|cap_text] eqn:Hcap; [done|].
    intros [= <-].
    apply item_inv in Hp as (d & -> & Hp).
    apply item_inv in Hc as (? & [= <-] & Hc).
    apply item_inv in Hm as (? & [= <-] & Hm).
    apply item_inv in Hname as (? & [= <-] & Hname).
    apply item_inv in Hs as (? & [= <-] & Hs).
    apply call_upper_inv in Hupper as (symbol' & -> & ->).
    apply format_fixed_inv in Hprice as (price & -> & Hprice).
    apply format_fixed_inv in Hchange as (change & -> & Hchange).
    apply format_fixed_inv in Hcap as (cap & -> & Hcap).
    by exists d, name, symbol', price, change, cap,
      price_text, change_text, cap_text.
  - intros (d & name & symbol & price & change & cap & price_text
            & change_text & cap_text & -> & Hp & Hc & Hm & Hname & Hs
            & Hprice & Hchange & Hcap & ->).
    unfold item, subscript. rewrite Hp, Hc, Hm, Hname, Hs.
    cbn. by rewrite Hprice, Hchange, Hcap.
Qed.

Lemma coin_dict_record idx coin record :
  coin_dict idx coin = inr record →
  dom record = list_to_set columns
  ∧ record !! "Rank" = Some (pretty idx).
Proof.
  intros (d & name & symbol & price & change & cap & price_text & change_text
          & cap_text & _ & _ & _ & _ & _ & _ & _ & _ & _ & ->)%coin_dict_inv.
  split; [apply coin_row_dom|]. unfold coin_row. by rewrite lookup_insert.
Qed.

(** X16: [fetch_top_100_coingecko] keeps a coin exactly when it is an
    object that has the five fields it reads, with numbers as price, 24 h
    change and market cap (that [format_f] can write) and a string as
    symbol; the record then has the six columns, the index of the coin as
    rank, the symbol in upper case, and the price and market cap without
    their trailing zeros.  A coin whose price, change or market cap is
    [null] is not kept. *)
Theorem coin_kept_when_complete idx coin record :
  (coin_dict idx coin = inr record
   ↔ ∃ d name symbol price change cap price_text change_text cap_text,
       coin = PDict d
       ∧ d !! "current_price" = Some (PNum price)
       ∧ d !! "price_change_percentage_24h" = Some (PNum change)
       ∧ d !! "market_cap" = Some (PNum cap)
       ∧ d !! "name" = Some name
       ∧ d !! "symbol" = Some (PStr symbol)
       ∧ format_f 8 price = inr price_text
       ∧ format_f 2 change = inr change_text
       ∧ format_f 2 cap = inr cap_text
       ∧ record = coin_row (pretty idx) (csv_text name) (upper symbol)
                    (rstrip "." (rstrip "0" price_text))
                    change_text
                    (rstrip "." (rstrip "0" cap_text)))
  ∧ (coin_dict idx coin = inr record →
     dom record = list_to_set columns ∧ record !! "Rank" = Some (pretty idx))
  ∧ (∀ d key,
       coin = PDict d →
       key ∈ ["current_price"; "price_change_percentage_24h"; "market_cap"] →
       d !! key = Some PNone →
       ∃ e, coin_dict idx coin = inl e).
Proof.
  split; [apply coin_dict_inv|]. split; [apply coin_dict_record|].
  intros d key -> Hkey Hnull.
  destruct (coin_dict idx (PDict d)) as [e|record'] eqn:Hrun; [by exists e|].
  apply coin_dict_inv in Hrun
    as (? & name & symbol & price & change & cap & price_text & change_text
        & cap_text & [= <-] & Hp & Hc & Hm & _).
  set_unfold in Hkey. destruct Hkey as [->|[->|[->|[]]]]; congruence.
Qed.

(** ** The list of the coins *)

Lemma StronglySorted_lt_succ (positions : list nat) :
  StronglySorted lt positions → StronglySorted lt (0%nat :: (S <$> positions)).
Proof.
  intros Hsorted. constructor.
  - induction Hsorted as [|i positions _ IH Hall]; [constructor|].
    cbn. constructor; [done|].
    apply Forall_fmap. eapply Forall_impl; [exact Hall|]. cbn. lia.
  - apply Forall_fmap, Forall_forall. cbn. lia.
Qed.

Lemma StronglySorted_lt_succ_tail (positions : list nat) :
  StronglySorted lt positions → StronglySorted lt (S <$> positions).
Proof. by intros [? _]%StronglySorted_lt_succ%StronglySorted_inv. Qed.

Lemma read_coins_positions idx (xs : list pyval) coins0 :
  ∃ evs new positions,
    read_coins idx xs coins0 = (evs, inr tt, coins0 ++ new)
    ∧ Forall (λ ev, ∃ e, ev = EvWarning e) evs
    ∧ (length new + length evs = length xs)%nat
    ∧ StronglySorted lt positions
    ∧ Forall2 (λ i record,
                 ∃ coin, xs !! i = Some coin
                         ∧ coin_dict (idx + Z.of_nat i) coin = inr record)
        positions new
    ∧ (∀ i coin record,
         xs !! i = Some coin →
         coin_dict (idx + Z.of_nat i) coin = inr record →
         i ∈ positions).
Proof.
  revert idx coins0. induction xs as [|coin rest IH]; intros idx coins0.
  { exists [], [], []. cbn. rewrite app_nil_r.
    repeat split; try constructor. by intros i coin record ?. }
  cbn [CmcJsonScraper.read_coins]. unfold mbind, stmt_bind.
  destruct (coin_dict idx coin) as [e|record] eqn:Hcoin.
  - destruct (IH (idx + 1) coins0)
      as (evs & new & positions & Hrun & Hevs & Hlen & Hsorted & Hnew & Hall).
    exists (EvWarning e :: evs), new, (S <$> positions).
    unfold emit. rewrite Hrun. split; [done|].
    split; [constructor; eauto|]. split; [cbn; lia|].
    split; [by apply StronglySorted_lt_succ_tail|]. split.
    + apply Forall2_fmap_l. eapply Forall2_impl; [exact Hnew|].
      intros i record (coin' & Hi & Hrec). exists coin'. split; [done|].
      by replace (idx + Z.of_nat (S i)) with (idx + 1 + Z.of_nat i) by lia.
    + intros [|i] coin' record Hi Hrec.
      * cbn in Hi. injection Hi as <-. rewrite Z.add_0_r in Hrec. congruence.
      * apply list_elem_of_fmap. exists i. split; [done|].
        apply (Hall i coin' record); [done|].
        by replace (idx + 1 + Z.of_nat i) with (idx + Z.of_nat (S i)) by lia.
  - destruct (IH (idx + 1) (coins0 ++ [record]))
      as (evs & new & positions & Hrun & Hevs & Hlen & Hsorted & Hnew & Hall).
    exists evs, (record :: new), (0%nat :: (S <$> positions)).
    rewrite Hrun, <- app_assoc. split; [done|]. split; [done|].
    split; [cbn; lia|]. split; [by apply StronglySorted_lt_succ|]. split.
    + constructor.
      * exists coin. split; [done|]. by rewrite Z.add_0_r.
      * apply Forall2_fmap_l. eapply Forall2_impl; [exact Hnew|].
        intros i record' (coin' & Hi & Hrec). exists coin'. split; [done|].
        by replace (idx + Z.of_nat (S i)) with (idx + 1 + Z.of_nat i) by lia.
    + intros [|i] coin' record' Hi Hrec; [left|].
      right. apply list_elem_of_fmap. exists i. split; [done|].
      apply (Hall i coin' record'); [done|].
      by replace (idx + 1 + Z.of_nat i) with (idx + Z.of_nat (S i)) by lia.
Qed.

Lemma fetch_answer status data (xs : list pyval) :
  ¬ (400 ≤ status < 600) → elements data = inr xs →
  fetch_top_100_coingecko (Response status (Some data))
  = (EvGet JSON_API_URL :: EvInfoFetched (length xs)
       :: (read_coins 1 xs []).1.1,
     inr (read_coins 1 xs []).2).
Proof.
  intros Hstatus Hdata. unfold CmcJsonScraper.fetch_top_100_coingecko.
  cbv zeta. unfold mbind, stmt_bind, emit, lift, raise_for_status, json.
  rewrite bool_decide_eq_false_2 by done. rewrite Hdata.
  destruct (read_coins_positions 1 xs []) as (evs & new & ? & Hrun & _).
  by rewrite Hrun.
Qed.


(** X17: on an answer that is not refused and whose body has elements,
    [fetch_top_100_coingecko] returns; every element is either kept or
    reported by one warning; the coins kept come in the order of the
    answer, and each carries as rank its position in the answer, counted
    from 1, so that a coin that is skipped leaves a gap in the ranks; no
    coin that can be read is left out. *)
Theorem fetch_keeps_api_positions status data (xs : list pyval) :
  ¬ (400 ≤ status < 600) → elements data = inr xs →
  ∃ evs coins positions,
    fetch_top_100_coingecko (Response status (Some data))
    = (EvGet JSON_API_URL :: EvInfoFetched (length xs) :: evs, inr coins)
    ∧ Forall (λ ev, ∃ e, ev = EvWarning e) evs
    ∧ (length coins + length evs = length xs)%nat
    ∧ StronglySorted lt positions
    ∧ Forall2 (λ i record,
                 ∃ coin, xs !! i = Some coin
                         ∧ coin_dict (1 + Z.of_nat i) coin = inr record
                         ∧ record !! "Rank" = Some (pretty (1 + Z.of_nat i)))
        positions coins
    ∧ (∀ i coin record,
         xs !! i = Some coin →
         coin_dict (1 + Z.of_nat i) coin = inr record →
         i ∈ positions).
Proof.
  intros Hstatus Hdata. rewrite (fetch_answer status data xs Hstatus Hdata).
  destruct (read_coins_positions 1 xs [])
    as (evs & new & positions & Hrun & Hevs & Hlen & Hsorted & Hnew & Hall).
  exists evs, new, positions. rewrite Hrun. split; [done|].
  split; [done|]. split; [done|]. split; [done|]. split; [|done].
  eapply Forall2_impl; [exact Hnew|].
  intros i record (coin & Hi & Hrec). exists coin.
  split; [done|]. split; [done|]. by apply coin_dict_record in Hrec as [_ ?].
Qed.

(** X18: [fetch_top_100_coingecko] raises in three cases only: the request
    fails, the status is 4xx or 5xx, or the body is not JSON or is JSON
    without elements ([null] or a number); [main] then ends with the same
    exception after the one request, and the files are as they were. *)
Theorem failed_fetch_writes_nothing r e fs :
  ((fetch_top_100_coingecko r).2 = inl e
   ↔ match r with
     | NoResponse f => e = exn_of_net f
     | Response status body =>
         (400 ≤ status < 600 ∧ e = HTTPError status)
         ∨ (¬ (400 ≤ status < 600) ∧ body = None ∧ e = JSONDecodeError)
         ∨ (¬ (400 ≤ status < 600) ∧ e = TypeError
            ∧ ∃ data, body = Some data ∧ (data = PNone ∨ ∃ x, data = PNum x))
     end)
  ∧ ((fetch_top_100_coingecko r).2 = inl e →
     main r fs = ([inl (EvGet JSON_API_URL)], inl e, fs)).
Proof.
  unfold CmcJsonScraper.main, CmcJsonScraper.fetch_top_100_coingecko.
  cbv zeta. unfold mbind, stmt_bind, emit, lift, raise_for_status, json.
  destruct r as [f|status [data|]].
  - cbn. split; [|by intros [= <-]]. split; [by intros [= <-]|by intros ->].
  - case_bool_decide as Hstatus.
    { cbn. split; [|by intros [= <-]]. split.
      - intros [= <-]. by left.
      - by intros [[_ ->]|[[? _]|[? _]]]. }
    destruct data as [|x|s|xs|d]; cbn [CmcJsonScraper.elements].
    + cbn. split; [|by intros [= <-]]. split.
      * intros [= <-]. right. right. eauto 10.
      * by intros [[? _]|[(_ & ? & _)|(_ & -> & _)]].
    + cbn. split; [|by intros [= <-]]. split.
      * intros [= <-]. right. right. eauto 10.
      * by intros [[? _]|[(_ & ? & _)|(_ & -> & _)]].
    + destruct (read_coins_positions 1 (PStr <$> chars s) [])
        as (evs & new & ? & Hrun & _).
      rewrite Hrun. cbn. split; [|done]. split; [done|].
      intros [[? _]|[(_ & ? & _)|(_ & _ & ? & [= <-] & [?|[? ?]])]]; done.
    + destruct (read_coins_positions 1 xs []) as (evs & new & ? & Hrun & _).
      rewrite Hrun. cbn. split; [|done]. split; [done|].
      intros [[? _]|[(_ & ? & _)|(_ & _ & ? & [= <-] & [?|[? ?]])]]; done.
    + destruct (read_coins_positions 1 (PStr <$> (map_to_list d).*1) [])
        as (evs & new & ? & Hrun & _).
      rewrite Hrun. cbn. split; [|done]. split; [done|].
      intros [[? _]|[(_ & ? & _)|(_ & _ & ? & [= <-] & [?|[? ?]])]]; done.
  - case_bool_decide as Hstatus.
    + cbn. split; [|by intros [= <-]]. split.
      * intros [= <-]. by left.
      * by intros [[_ ->]|[[? _]|[? _]]].
    + cbn. split; [|by intros [= <-]]. split.
      * intros [= <-]. right. by left.
      * intros [[? _]|[(_ & _ & ->)|(_ & _ & ? & ? & _)]]; done.
Qed.

Lemma main_after_fetch r coins fs :
  (fetch_top_100_coingecko r).2 = inr coins →
  main r fs
  = ((inl <$> (fetch_top_100_coingecko r).1)
       ++ (inr <$> (write_to_csv coins OUTPUT_CSV fs).1.1),
     (write_to_csv coins OUTPUT_CSV fs).1.2,
     (write_to_csv coins OUTPUT_CSV fs).2).
Proof.
  unfold CmcJsonScraper.main.
  destruct (fetch_top_100_coingecko r) as [evs [e|coins']]; [done|].
  intros [= ->]. by destruct (write_to_csv coins OUTPUT_CSV fs) as [[evs' r'] fs'].
Qed.


Lemma read_coins_strings idx (xs : list string) coins0 :
  read_coins idx (PStr <$> xs) coins0
  = (replicate (length xs) (EvWarning (Raised TypeError)), inr tt, coins0).
Proof.
  revert idx coins0. induction xs as [|x xs IH]; intros idx coins0; [done|].
  cbn [fmap list_fmap CmcJsonScraper.read_coins].
  change (coin_dict idx (PStr x)) with (@inl coin_error (gmap string string) (Raised TypeError)).
  unfold mbind, stmt_bind, emit. by rewrite IH.
Qed.

(** X20: an answer that is not refused and whose body is a JSON object, as
    the error answers of the API are, or a JSON string, is read as a list
    of coins: each key, or each character, is reported as a coin that
    failed to parse, nothing is kept, and [main] ends without an exception
    and with the files as they were. *)
Theorem object_answer_writes_nothing status data fs :
  ¬ (400 ≤ status < 600) →
  (∃ d, data = PDict d) ∨ (∃ s, data = PStr s) →
  ∃ n,
    fetch_top_100_coingecko (Response status (Some data))
    = (EvGet JSON_API_URL :: EvInfoFetched n
         :: replicate n (EvWarning (Raised TypeError)),
       inr [])
    ∧ (∀ d, data = PDict d → n = size d)
    ∧ main (Response status (Some data)) fs
      = ((inl <$> (EvGet JSON_API_URL :: EvInfoFetched n
                     :: replicate n (EvWarning (Raised TypeError))))
           ++ [inr (EvLogError "No data to write.")],
         inr tt, fs).
Proof.
  intros Hstatus Hdata.
  assert (∃ xs, elements data = inr (PStr <$> xs)
                ∧ ∀ d, data = PDict d → length xs = size d)
    as (xs & Hxs & Hsize).
  { destruct Hdata as [[d ->]|[s ->]]; cbn; eexists; (split; [done|]).
    - intros ? [= <-]. by rewrite length_fmap, length_map_to_list.
    - by intros ? [=]. }
  exists (length xs).
  assert (fetch_top_100_coingecko (Response status (Some data))
          = (EvGet JSON_API_URL :: EvInfoFetched (length xs)
               :: replicate (length xs) (EvWarning (Raised TypeError)),
             inr [])) as Hfetch.
  { by rewrite (fetch_answer status data _ Hstatus Hxs), read_coins_strings,
      length_fmap. }
  split; [done|]. split; [done|].
  rewrite (main_after_fetch _ [] fs) by by rewrite Hfetch.
  by rewrite Hfetch.
Qed.

(** ** The trimmed cells *)

Lemma skip_char_app c (l l' : list ascii) :
  head l' ≠ Some c → skip_char c (l ++ l') = skip_char c l ++ l'.
Proof.
  intros Hhead. induction l as [|x l IH]; cbn.
  - destruct l' as [|y l']; [done|]. cbn.
    rewrite bool_decide_eq_false_2; [done|]. intros ->. by apply Hhead.
  - by case_bool_decide.
Qed.

Lemma skip_char_head c (l : list ascii) :
  head l ≠ Some c → skip_char c l = l.
Proof.
  destruct l as [|x l]; [done|]. cbn. intros Hhead.
  rewrite bool_decide_eq_false_2; [done|]. intros ->. by apply Hhead.
Qed.

Lemma skip_char_subseteq c (l : list ascii) : skip_char c l ⊆ l.
Proof.
  induction l as [|x l IH]; [done|]. cbn. case_bool_decide; [|done].
  intros y Hy. right. by apply IH.
Qed.

Lemma string_of_list_ascii_app (l l' : list ascii) :
  string_of_list_ascii (l ++ l')
  = string_of_list_ascii l +:+ string_of_list_ascii l'.
Proof. induction l as [|c l IH]; [done|]. cbn. by rewrite IH. Qed.

Lemma trimmed_fixed (whole frac : string) :
  "."%char ∉ list_ascii_of_string whole →
  "."%char ∉ list_ascii_of_string frac →
  rstrip "." (rstrip "0" (whole +:+ "." +:+ frac))
  = match rstrip "0" frac with
    | "" => whole
    | kept => whole +:+ "." +:+ kept
    end.
Proof.
  intros Hwhole Hfrac. unfold rstrip at 2 3.
  rewrite !list_ascii_of_string_app, rev_app_distr.
  change (list_ascii_of_string ".") with ["."%char].
  rewrite rev_app_distr. cbn [rev app]. rewrite <- app_assoc. cbn [app].
  rewrite skip_char_app by done.
  set (kept := skip_char "0" (rev (list_ascii_of_string frac))).
  assert ("."%char ∉ kept) as Hkept.
  { intros Hin%skip_char_subseteq. apply Hfrac.
    by apply list_elem_of_In, in_rev, list_elem_of_In. }
  rewrite rev_app_distr. cbn [rev]. rewrite rev_involutive, <- app_assoc.
  cbn [app]. unfold rstrip.
  rewrite string_of_list_ascii_app, list_ascii_of_string_app,
    !list_ascii_of_string_of_list_ascii.
  rewrite rev_app_distr. cbn [rev app]. rewrite rev_involutive.
  rewrite <- app_assoc. cbn [app].
  destruct kept as [|x kept'] eqn:Hx.
  - cbn [app rev string_of_list_ascii]. cbn [skip_char].
    rewrite bool_decide_eq_true_2 by done.
    rewrite skip_char_head.
    + by rewrite rev_involutive, string_of_list_ascii_of_string.
    + intros Hhead. apply Hwhole.
      apply list_elem_of_In, in_rev, list_elem_of_In.
      destruct (rev (list_ascii_of_string whole)); [done|].
      injection Hhead as ->. left.
  - rewrite skip_char_head.
    2:{ cbn. intros [= ->]. apply Hkept. left. }
    rewrite rev_app_distr. cbn [rev app]. rewrite rev_involutive.
    rewrite <- app_assoc. cbn [app].
    rewrite string_of_list_ascii_app, string_of_list_ascii_of_string.
    cbn [string_of_list_ascii].
    destruct (string_of_list_ascii (rev kept' ++ [x])) as [|y text] eqn:Htext;
      [|done].
    apply string_of_list_ascii_empty in Htext. by destruct (rev kept').
Qed.

(** X21: the price of a record is the fixed-point text of the number
    without its trailing zeros: when the text has one point, the digits
    before it are kept as they are, the zeros that end the digits after it
    are dropped, and the point goes with them when nothing is left after
    it. *)
Theorem price_keeps_its_integer_part idx coin record d price whole frac :
  coin_dict idx coin = inr record →
  coin = PDict d →
  d !! "current_price" = Some (PNum price) →
  format_f 8 price = inr (whole +:+ "." +:+ frac) →
  "."%char ∉ list_ascii_of_string whole →
  "."%char ∉ list_ascii_of_string frac →
  record !! "Price (USD)"
  = Some match rstrip "0" frac with
         | "" => whole
         | kept => whole +:+ "." +:+ kept
         end.
Proof.
  intros (d' & name & symbol & price' & change & cap & price_text & change_text
          & cap_text & -> & Hp & _ & _ & _ & _ & Hprice & _ & _ & ->)%coin_dict_inv
    [= <-] Hp' Htext Hwhole Hfrac.
  assert (price' = price) as -> by congruence.
  assert (price_text = whole +:+ "." +:+ frac) as -> by congruence.
  unfold coin_row.
  rewrite !lookup_insert_ne by done. rewrite lookup_insert.
  by rewrite trimmed_fixed.
Qed.

End JsonFacts.

Lemma fetch_keeps_api_positions_witness :
  ∃ evs coins,
    CmcJsonScraper.q_fetch_top_100_coingecko CmcJsonScraper.example_answer
    = (CmcJsonScraper.EvGet CmcJsonScraper.JSON_API_URL
         :: CmcJsonScraper.EvInfoFetched 3 :: evs,
       inr coins)
    ∧ (length coins + length evs = 3)%nat
    ∧ (λ record : gmap string string, record !! "Rank") <$> coins
      = [Some "1"; Some "3"].
Proof.
  destruct (fetch_keeps_api_positions CmcJsonScraper.q_format_f
              CmcJsonScraper.ascii_upper CmcJsonScraper.q_str
              CmcJsonScraper.ascii_chars 200
              (PList
                 [CmcJsonScraper.market "Bitcoin" "btc" 43210.5%Q 1.234%Q
                    850000000000%Q;
                  PDict
                    (<[ "current_price" := PNone ]>
                       (match CmcJsonScraper.market "Newcoin" "new" 0%Q 0%Q 0%Q with
                        | PDict d => d
                        | _ => ∅
                        end));
                  CmcJsonScraper.market "Ethereum" "eth" 2300.125%Q (-0.405)%Q
                    270000000000%Q])
              _ ltac:(lia) eq_refl)
    as (evs & coins & positions & Hrun & _ & Hlen & _).
  exists evs, coins. split; [exact Hrun|]. split; [exact Hlen|].
  vm_compute in Hrun. injection Hrun as _ <-. vm_compute. reflexivity.
Defined.


Lemma object_answer_writes_nothing_witness :
  ∃ n,
    CmcJsonScraper.q_fetch_top_100_coingecko
      (Response 200 (Some (PDict {[ "error" := PStr "rate limit" ]})))
    = (CmcJsonScraper.EvGet CmcJsonScraper.JSON_API_URL
         :: CmcJsonScraper.EvInfoFetched n
         :: replicate n (CmcJsonScraper.EvWarning
                           (CmcJsonScraper.Raised TypeError)),
       inr [])
    ∧ n = 1%nat.
Proof.
  destruct (object_answer_writes_nothing CmcJsonScraper.q_format_f
              CmcJsonScraper.ascii_upper CmcJsonScraper.q_str
              CmcJsonScraper.ascii_chars 200
              (PDict {[ "error" := PStr "rate limit" ]}) ∅)
    as (n & Hrun & Hsize & _).
  - lia.
  - left. by eexists.
  - exists n. split; [exact Hrun|]. by rewrite (Hsize _ eq_refl).
Defined.

Lemma price_keeps_its_integer_part_witness :
  CmcJsonScraper.coin_row "1" "Bitcoin" "BTC" "43210.5" "1.23" "850000000000"
    !! "Price (USD)"
  = Some "43210.5".
Proof.
  etrans;
    [apply (price_keeps_its_integer_part CmcJsonScraper.q_format_f
              CmcJsonScraper.ascii_upper CmcJsonScraper.q_str 1
              (CmcJsonScraper.market "Bitcoin" "btc" 43210.5%Q 1.234%Q
                 850000000000%Q)
              (CmcJsonScraper.coin_row "1" "Bitcoin" "BTC" "43210.5" "1.23"
                 "850000000000")
              (match CmcJsonScraper.market "Bitcoin" "btc" 43210.5%Q 1.234%Q
                       850000000000%Q with
               | PDict d => d
               | _ => ∅
               end)
              43210.5%Q "43210" "50000000")|].
  - vm_compute. reflexivity.
  - reflexivity.
  - vm_compute. reflexivity.
  - vm_compute. reflexivity.
  - by apply (bool_decide_unpack _).
  - by apply (bool_decide_unpack _).
  - vm_compute. reflexivity.
Defined.
